(** * A shallow embedding of the schedule bot of [Deployment.py]

    The roster of an entry is stored in the [participants] column as the
    Python string [", ".join(entries)], every entry being the raw string
    ["uid:name"] or ["uid:name:tier"].  The button callbacks read that
    column, decode it with [get_participants_list], transform the list of
    raw entry strings and write it back.  A Python [str] is modelled as the
    Rocq [string] of its UTF-8 bytes: the separators the code looks for
    are ASCII, so finding them byte by byte finds them character by
    character, and where the code looks at the characters themselves
    ([isdigit], [int], [strip], [strptime]) the bytes are decoded into
    code points.  Python's [in] on strings is [contains], and the few
    [str] methods the code uses are the functions below. *)

From Stdlib Require Import String Ascii List ZArith Bool Lia.
From Stdlib Require Import Numbers.DecimalString.
Import ListNotations.
Open Scope string_scope.

(* ------------------------------------------------------------------ *)
(** ** Python string primitives *)

Module Py.

(** [s.startswith(p)] *)
Fixpoint startswith (p s : string) : bool :=
  match p, s with
  | EmptyString, _ => true
  | String _ _, EmptyString => false
  | String a p', String b s' => Ascii.eqb a b && startswith p' s'
  end.

(** [needle in hay] *)
Fixpoint contains (needle hay : string) : bool :=
  startswith needle hay ||
  match hay with
  | EmptyString => false
  | String _ t => contains needle t
  end.

(** [c in s] for one character [c]. *)
Fixpoint has_char (c : ascii) (s : string) : bool :=
  match s with
  | EmptyString => false
  | String d t => Ascii.eqb d c || has_char c t
  end.

(** [s.split(c)] for a one-character separator [c]. *)
Fixpoint split_char (c : ascii) (s : string) : list string :=
  match s with
  | EmptyString => [""]
  | String d t =>
      let r := split_char c t in
      if Ascii.eqb d c then "" :: r
      else match r with
           | h :: tl => String d h :: tl
           | [] => [String d ""]
           end
  end.

(** The first occurrence of [c] in [s]: the text before and after it. *)
Fixpoint cut_char (c : ascii) (s : string) : option (string * string) :=
  match s with
  | EmptyString => None
  | String d t =>
      if Ascii.eqb d c then Some ("", t)
      else match cut_char c t with
           | Some (a, b) => Some (String d a, b)
           | None => None
           end
  end.

(** [s.split(c, 2)]: at most two cuts, the rest stays whole. *)
Definition split_char_max2 (c : ascii) (s : string) : list string :=
  match cut_char c s with
  | None => [s]
  | Some (a, r) =>
      match cut_char c r with
      | None => [a; r]
      | Some (b, rest) => [a; b; rest]
      end
  end.

(** [s.split(", ")]: the separator is the two characters [","] and
    [" "], found left to right. *)
Fixpoint split_comma_space (s : string) : list string :=
  match s with
  | EmptyString => [""]
  | String d t =>
      let r := split_comma_space t in
      let cut := match t with
                 | String e t' => Ascii.eqb d "," && Ascii.eqb e " "
                 | EmptyString => false
                 end in
      if cut then
        match t with
        | String _ t' => "" :: split_comma_space t'
        | EmptyString => r
        end
      else match r with
           | h :: tl => String d h :: tl
           | [] => [String d ""]
           end
  end.

(** [", ".join(l)] *)
Definition join_comma_space (l : list string) : string :=
  String.concat ", " l.

(** *** Code points

    A Python [str] is a sequence of code points; our strings hold its
    UTF-8 encoding, and [utf8] decodes it back (a byte that does not start
    a valid sequence reads as U+FFFD, which no Python [str] produces). *)

Definition byte (a : ascii) : Z := Z.of_nat (nat_of_ascii a).

Definition cont_byte (a : ascii) : bool :=
  let b := byte a in (128 <=? b)%Z && (b <? 192)%Z.

Definition low6 (a : ascii) : Z := Z.land (byte a) 63.

Fixpoint utf8 (s : string) : list Z :=
  match s with
  | EmptyString => []
  | String a t =>
      let b := byte a in
      if (b <? 128)%Z then b :: utf8 t
      else if (194 <=? b)%Z && (b <? 224)%Z then
        match t with
        | String c t' =>
            if cont_byte c then (Z.land b 31 * 64 + low6 c)%Z :: utf8 t'
            else 65533%Z :: utf8 t
        | EmptyString => [65533%Z]
        end
      else if (224 <=? b)%Z && (b <? 240)%Z then
        match t with
        | String c (String d t') =>
            if cont_byte c && cont_byte d
            then (Z.land b 15 * 4096 + low6 c * 64 + low6 d)%Z :: utf8 t'
            else 65533%Z :: utf8 t
        | _ => 65533%Z :: utf8 t
        end
      else if (240 <=? b)%Z && (b <? 245)%Z then
        match t with
        | String c (String d (String e t')) =>
            if cont_byte c && cont_byte d && cont_byte e
            then (Z.land b 7 * 262144 + low6 c * 4096 + low6 d * 64 + low6 e)%Z :: utf8 t'
            else 65533%Z :: utf8 t
        | _ => 65533%Z :: utf8 t
        end
      else 65533%Z :: utf8 t
  end.

(** The digit zeros of the Unicode category Nd (Unicode 15.1, the
    database of CPython 3.13): each starts a run of ten decimal digits. *)
Definition decimal_zeros : list Z := Eval cbv in map Z.of_N [
  0x30; 0x660; 0x6F0; 0x7C0; 0x966; 0x9E6; 0xA66; 0xAE6; 0xB66; 0xBE6;
  0xC66; 0xCE6; 0xD66; 0xDE6; 0xE50; 0xED0; 0xF20; 0x1040; 0x1090; 0x17E0;
  0x1810; 0x1946; 0x19D0; 0x1A80; 0x1A90; 0x1B50; 0x1BB0; 0x1C40; 0x1C50;
  0xA620; 0xA8D0; 0xA900; 0xA9D0; 0xA9F0; 0xAA50; 0xABF0; 0xFF10;
  0x104A0; 0x10D30; 0x11066; 0x110F0; 0x11136; 0x111D0; 0x112F0; 0x11450;
  0x114D0; 0x11650; 0x116C0; 0x11730; 0x118E0; 0x11950; 0x11C50; 0x11D50;
  0x11DA0; 0x11F50; 0x16A60; 0x16AC0; 0x16B50; 0x1D7CE; 0x1D7D8; 0x1D7E2;
  0x1D7EC; 0x1D7F6; 0x1E140; 0x1E2F0; 0x1E4F0; 0x1E950; 0x1FBF0]%N.

(** The code points with Numeric_Type=Digit (superscripts, subscripts,
    circled and similar digits): [isdigit] accepts them, [int] does not. *)
Definition digit_ranges : list (Z * Z) := Eval cbv in
  map (fun '(a, b) => (Z.of_N a, Z.of_N b)) [
  (0xB2, 0xB3); (0xB9, 0xB9); (0x1369, 0x1371); (0x19DA, 0x19DA);
  (0x2070, 0x2070); (0x2074, 0x2079); (0x2080, 0x2089);
  (0x2460, 0x2468); (0x2474, 0x247C); (0x2488, 0x2490); (0x24EA, 0x24EA);
  (0x24F5, 0x24FD); (0x24FF, 0x24FF); (0x2776, 0x277E); (0x2780, 0x2788);
  (0x278A, 0x2792); (0x10A40, 0x10A43); (0x10E60, 0x10E68);
  (0x11052, 0x1105A); (0x1F100, 0x1F10A)]%N.

(** [Py_UNICODE_TODECIMAL]: the value of a decimal digit. *)
Definition decimal_value (cp : Z) : option Z :=
  match find (fun z => (z <=? cp)%Z && (cp <? z + 10)%Z) decimal_zeros with
  | Some z => Some (cp - z)%Z
  | None => None
  end.

Definition is_digit_cp (cp : Z) : bool :=
  match decimal_value cp with
  | Some _ => true
  | None => existsb (fun '(a, b) => (a <=? cp)%Z && (cp <=? b)%Z) digit_ranges
  end.

(** [Py_UNICODE_ISSPACE] above ASCII. *)
Definition is_unicode_space (cp : Z) : bool :=
  existsb (Z.eqb cp) [133; 160; 5760; 8232; 8233; 8239; 8287; 12288]%Z
  || ((8192 <=? cp)%Z && (cp <=? 8202)%Z).

(** [str.isdigit()]: non-empty, every character a digit. *)
Definition isdigit (s : string) : bool :=
  match utf8 s with
  | [] => false
  | cps => forallb is_digit_cp cps
  end.

(** [_PyUnicode_TransformDecimalAndSpaceToASCII]: ASCII stays, a space
    becomes [" "], a decimal digit its ASCII digit, anything else ["?"]. *)
Definition to_ascii_cp (cp : Z) : Z :=
  if (cp <? 127)%Z then cp
  else if is_unicode_space cp then 32%Z
  else match decimal_value cp with
       | Some d => (48 + d)%Z
       | None => 63%Z
       end.

Definition is_ascii_space_cp (c : Z) : bool :=
  ((9 <=? c)%Z && (c <=? 13)%Z) || (c =? 32)%Z.

Definition is_ascii_digit_cp (c : Z) : bool := (48 <=? c)%Z && (c <=? 57)%Z.

Fixpoint skip_spaces (l : list Z) : list Z :=
  match l with
  | c :: t => if is_ascii_space_cp c then skip_spaces t else l
  | [] => []
  end.

(** The digit loop of [PyLong_FromString] in base 10: digits, each [_]
    followed by a digit; the value, the number of digits, the rest.
    [None] for a [_] not followed by a digit. *)
Fixpoint scan_digits (acc n : Z) (l : list Z) : option (Z * Z * list Z) :=
  match l with
  | c :: t =>
      if is_ascii_digit_cp c then scan_digits (10 * acc + (c - 48)) (n + 1) t
      else if (c =? 95)%Z then
        match t with
        | d :: t' =>
            if is_ascii_digit_cp d then scan_digits (10 * acc + (d - 48)) (n + 1) t'
            else None
        | [] => None
        end
      else Some (acc, n, l)
  | [] => Some (acc, n, [])
  end%Z.

(** CPython's default [sys.get_int_max_str_digits()] (3.11 and later). *)
Definition MAX_STR_DIGITS : Z := 4300.

(** [int(s)]: [PyLong_FromUnicodeObject] in base 10; [None] is the
    [ValueError]. *)
Definition int (s : string) : option Z :=
  let l := skip_spaces (map to_ascii_cp (utf8 s)) in
  let '(sign, l) := match l with
                    | 45%Z :: t => ((-1)%Z, t)
                    | 43%Z :: t => (1%Z, t)
                    | _ => (1%Z, l)
                    end in
  match l with
  | c :: _ =>
      if is_ascii_digit_cp c then
        match scan_digits 0 0 l with
        | Some (v, n, rest) =>
            match skip_spaces rest with
            | [] => if (n <=? MAX_STR_DIGITS)%Z then Some (sign * v)%Z else None
            | _ => None
            end
        | None => None
        end
      else None
  | [] => None
  end.

(** [f"{n}"] for an integer [n]. *)
Definition str_of_Z (n : Z) : string :=
  NilEmpty.string_of_int (Z.to_int n).

End Py.

(* ------------------------------------------------------------------ *)
(** ** The roster column *)

(** [get_participants_list] on the string read from the database. *)
Definition get_participants_list (participants : string) : list string :=
  if String.eqb participants "" then [] else Py.split_comma_space participants.

(** What the callbacks write back: [", ".join(current_participants)]. *)
Definition store_participants (l : list string) : string :=
  Py.join_comma_space l.

(** The user id of a raw entry, as [DelayButton] reads it:
    [p.split(":")[0]]. *)
Definition entry_uid (p : string) : string :=
  match Py.split_char ":" p with
  | h :: _ => h
  | [] => ""
  end.

(** [JoinButton.callback], lines 241-242: append ["uid:name"] unless some
    entry contains [user_id] as a substring. *)
Definition join_participants (current : list string) (user_id user_name : string)
  : list string :=
  if existsb (fun p => Py.contains user_id p) current then current
  else current ++ [user_id ++ ":" ++ user_name].

(** [LeaveButton.callback], line 334. *)
Definition leave_participants (current : list string) (user_id : string)
  : list string :=
  filter (fun p => negb (Py.contains user_id p)) current.

(** The outcome of [DelayButton.callback]. *)
Inductive delay_result :=
| DelayNotJoined                 (** the ephemeral error message, no write *)
| DelayRaises                    (** an uncaught [IndexError]/[ValueError] *)
| DelayOk (new : list string).   (** the new roster is written *)

(** The loop body of lines 291-299 for one entry. *)
Definition delay_entry (user_id p : string) : option string :=
  match Py.split_char ":" p with
  | p0 :: rest =>
      if String.eqb p0 user_id then
        match rest with
        | [] => None                                  (* parts[1]: IndexError *)
        | p1 :: rest' =>
            let current_delay := match rest' with
                                 | p2 :: _ => Py.int p2
                                 | [] => Some 0%Z
                                 end in
            match current_delay with
            | None => None                            (* int(parts[2]): ValueError *)
            | Some d =>
                let new_delay := ((d + 1) mod 3)%Z in
                Some (p0 ++ ":" ++ p1 ++ ":" ++ Py.str_of_Z new_delay)
            end
        end
      else Some p
  | [] => Some p
  end.

Fixpoint delay_loop (user_id : string) (l : list string) : option (list string) :=
  match l with
  | [] => Some []
  | p :: t =>
      match delay_entry user_id p, delay_loop user_id t with
      | Some q, Some t' => Some (q :: t')
      | _, _ => None
      end
  end.

(** [DelayButton.callback], lines 277-299. *)
Definition delay_participants (current : list string) (user_id : string)
  : delay_result :=
  if negb (existsb (fun p => Py.contains user_id p) current) then DelayNotJoined
  else match delay_loop user_id current with
       | Some l => DelayOk l
       | None => DelayRaises
       end.

(** [create_event_embed], lines 91-105: the display line of one raw
    entry; [None] when the body raises and the entry is skipped
    ([parts[1]] on an entry without [":"]). *)
Definition LATE_MARK : string := "⏰".

Definition render_name (p : string) : option string :=
  match Py.split_char_max2 ":" p with
  | _ :: name :: rest =>
      match rest with
      | p2 :: _ =>
          if Py.isdigit p2 then
            match Py.int p2 with
            | Some delay =>
                if (0 <? delay)%Z
                then Some (name ++ " (+" ++ Py.str_of_Z delay ++ LATE_MARK ++ ")")
                else Some name
            | None => None
            end
          else Some name
      | [] => Some name
      end
  | _ => None
  end.

Definition render_entry (p : string) : option string :=
  match render_name p with
  | Some name => Some ("```• " ++ name ++ "```")
  | None => None
  end.

Fixpoint render_participants (l : list string) : list string :=
  match l with
  | [] => []
  | p :: t =>
      match render_entry p with
      | Some d => d :: render_participants t
      | None => render_participants t
      end
  end.

(* ------------------------------------------------------------------ *)
(** ** [parse_time_slot]

    A datetime is its wall-clock reading in [USER_TIMEZONE], counted in
    seconds from day 0: two aware datetimes with the same [tzinfo] compare
    by their wall-clock fields, and [timedelta(days=1)] adds one day to
    them, so the code's arithmetic is exactly the one on these numbers. *)

Definition DAY : Z := 86400.

Local Open Scope Z_scope.

(** [str.isspace()] on a code point ([Py_UNICODE_ISSPACE]). *)
Definition is_space_cp (c : Z) : bool :=
  ((9 <=? c) && (c <=? 13)) || ((28 <=? c) && (c <=? 32)) || Py.is_unicode_space c.

Fixpoint lstrip (l : list Z) : list Z :=
  match l with
  | c :: t => if is_space_cp c then lstrip t else l
  | [] => []
  end.

(** [s.strip()], as the code points of the result. *)
Definition strip (s : string) : list Z := rev (lstrip (rev (lstrip (Py.utf8 s)))).

(** The first occurrence of the code point [c]: what is before and after. *)
Fixpoint cut_cp (c : Z) (l : list Z) : option (list Z * list Z) :=
  match l with
  | [] => None
  | d :: t =>
      if (d =? c)%Z then Some ([], t)
      else match cut_cp c t with
           | Some (a, b) => Some (d :: a, b)
           | None => None
           end
  end.

Definition in_range (lo hi c : Z) : bool := (lo <=? c) && (c <=? hi).

(** The [%H] field of [strptime]: its regular expression
    [2[0-3]|[0-1]\d|\d] must match all of [h] ([\d] is any Unicode decimal
    digit, [[0-1]] and [[0-3]] are ASCII), then [int] reads the match. *)
Definition parse_H (h : list Z) : option Z :=
  match h with
  | [a] => Py.decimal_value a
  | [a; b] =>
      if (a =? 50) && in_range 48 51 b then Some (20 + (b - 48))
      else if in_range 48 49 a then
        match Py.decimal_value b with
        | Some d => Some (10 * (a - 48) + d)
        | None => None
        end
      else None
  | _ => None
  end.

(** The [%M] field: [[0-5]\d|\d]. *)
Definition parse_M (m : list Z) : option Z :=
  match m with
  | [a] => Py.decimal_value a
  | [a; b] =>
      if in_range 48 53 a then
        match Py.decimal_value b with
        | Some d => Some (10 * (a - 48) + d)
        | None => None
        end
      else None
  | _ => None
  end.

(** [strptime(f"{today} {x}:00", "%Y-%m-%d %H:%M:%S")] as seconds from the
    start of [today], for the stripped half [x]: [%H] takes the text
    before the first [":"] and [%M] the rest, the [":00"] appended being
    the [%S] field (text after it is left unconverted, a [ValueError]). *)
Definition parse_hm (x : list Z) : option Z :=
  match cut_cp 58 x with
  | Some (h, m) =>
      match parse_H h, parse_M m with
      | Some hh, Some mm => Some (hh * 3600 + mm * 60)
      | _, _ => None
      end
  | None => None
  end.

(** [parse_time_slot], lines 52-65; [today] is the day number of
    [datetime.now(USER_TIMEZONE)], [None] is the [BadArgument]. *)
Definition parse_time_slot (today : Z) (time_slot : string) : option (Z * Z) :=
  match Py.split_char "-" time_slot with
  | [start_str; end_str] =>
      match parse_hm (strip start_str), parse_hm (strip end_str) with
      | Some s, Some e =>
          let start := (today * DAY + s)%Z in
          let end_ := (today * DAY + e)%Z in
          let end_ := if (end_ <? start)%Z then (end_ + DAY)%Z else end_ in
          Some (start, end_)
      | _, _ => None
      end
  | _ => None
  end.

Local Close Scope Z_scope.

Definition day_of (t : Z) : Z := (t / DAY)%Z.
(* ------------------------------------------------------------------ *)
(** ** The store, the Discord side and the effects of a coroutine

    One row of the [schedule] table; [message_id] is NULL until the first
    message is sent.  The Discord side is a [presenter]: which channels
    [bot.get_channel] finds, how fetching-and-editing a message ends and
    how [channel.send] ends.  The two database calls of
    [update_schedule_message] may fail: [db_execute] retries a failing
    call three times ([@retry(stop=stop_after_attempt(3))], line 22) and
    then raises tenacity's [RetryError]; the presenter says, for each row
    id, whether the [SELECT message_id] and the [UPDATE ... message_id]
    return within their attempts (the seconds spent waiting between
    attempts are not modelled).  The other database calls are modelled as
    returning. *)

Record row := mk_row {
  r_id : Z;
  r_server_name : string;
  r_time_slot : string;
  r_participants : string;
  r_channel_id : Z;
  r_message_id : option Z
}.

Inductive view_kind := ViewButtons | ViewEnded.

Inductive event :=
| ESent (channel msg : Z) (kind : view_kind) (lines : list string)
| EEdited (msg : Z) (kind : view_kind) (lines : list string)
| ENotice (channel : Z)
| ESlept (seconds : Z).

Record world := mk_world {
  w_db : list row;
  w_log : list event;      (** most recent first *)
  w_next_msg : Z;          (** the id Discord gives the next message *)
  w_now : Z                (** wall-clock seconds in [USER_TIMEZONE] *)
}.

Inductive exn := NotFound | Forbidden | OtherError | BadArgument | RetryError.

Inductive fetch_outcome := FetchEdited | FetchNotFound | FetchForbidden | FetchOther.
Inductive send_outcome := SendOk | SendNotFound | SendForbidden | SendOther.

Record presenter := mk_presenter {
  channel_exists : Z -> bool;
  fetch : Z -> fetch_outcome;      (** [fetch_message(m)] then [edit] *)
  send : Z -> send_outcome;        (** [channel.send] in a channel *)
  select_ok : Z -> bool;           (** [SELECT message_id] of a row id returns *)
  update_ok : Z -> bool            (** [UPDATE ... message_id] of a row id returns *)
}.

Inductive result (A : Type) := Ok (a : A) | Raise (e : exn).
Arguments Ok {A} a.
Arguments Raise {A} e.

(** A coroutine: state passing with Python exceptions. *)
Definition M (A : Type) := world -> result A * world.

Definition ret {A} (a : A) : M A := fun w => (Ok a, w).
Definition raise {A} (e : exn) : M A := fun w => (Raise e, w).
Definition bind {A B} (m : M A) (k : A -> M B) : M B :=
  fun w => match m w with
           | (Ok a, w') => k a w'
           | (Raise e, w') => (Raise e, w')
           end.
(** [try: m except: h] *)
Definition try_catch {A} (m : M A) (h : exn -> M A) : M A :=
  fun w => match m w with
           | (Raise e, w') => h e w'
           | r => r
           end.

Notation "x <- m ;; k" := (bind m (fun x => k)) (at level 61, m at next level, right associativity).
Notation "m ;;; k" := (bind m (fun _ => k)) (at level 61, right associativity).

Definition get_now : M Z := fun w => (Ok (w_now w), w).
Definition log (e : event) : M unit :=
  fun w => (Ok tt, mk_world (w_db w) (e :: w_log w) (w_next_msg w) (w_now w)).
Definition update_db (f : list row -> list row) : M unit :=
  fun w => (Ok tt, mk_world (f (w_db w)) (w_log w) (w_next_msg w) (w_now w)).
Definition select_rows : M (list row) := fun w => (Ok (w_db w), w).

(** [await asyncio.sleep(d)]: the clock moves on by [d]. *)
Definition sleep (d : Z) : M unit :=
  fun w => (Ok tt, mk_world (w_db w) (ESlept d :: w_log w) (w_next_msg w) (w_now w + d)%Z).

Definition set_participants_row (rid : Z) (v : string) (r : row) : row :=
  if (r_id r =? rid)%Z
  then mk_row (r_id r) (r_server_name r) (r_time_slot r) v (r_channel_id r) (r_message_id r)
  else r.

Definition set_message_id_row (rid m : Z) (r : row) : row :=
  if (r_id r =? rid)%Z
  then mk_row (r_id r) (r_server_name r) (r_time_slot r) (r_participants r) (r_channel_id r) (Some m)
  else r.

(** [UPDATE schedule SET participants=? WHERE id=?] *)
Definition db_set_participants (rid : Z) (v : string) : M unit :=
  update_db (map (set_participants_row rid v)).

(** [UPDATE schedule SET message_id=? WHERE id=?] *)
Definition db_set_message_id (P : presenter) (rid m : Z) : M unit :=
  if update_ok P rid then update_db (map (set_message_id_row rid m)) else raise RetryError.

(** [UPDATE schedule SET participants=''] *)
Definition db_clear_all : M unit :=
  update_db (map (fun r => set_participants_row (r_id r) "" r)).

(** [SELECT message_id FROM schedule WHERE id=?], then
    [result[0][0] if result and result[0][0] else None]. *)
Definition db_select_message_id (P : presenter) (rid : Z) : M (option Z) :=
  if select_ok P rid then
    fun w => (Ok (match find (fun r => (r_id r =? rid)%Z) (w_db w) with
                  | Some r => r_message_id r
                  | None => None
                  end), w)
  else raise RetryError.

Definition exn_of_send (o : send_outcome) : exn :=
  match o with
  | SendNotFound => NotFound
  | SendForbidden => Forbidden
  | _ => OtherError
  end.

(** [await channel.send(embed=..., view=...)], giving the new message id. *)
Definition send_card (P : presenter) (ch : Z) (k : view_kind) (lines : list string) : M Z :=
  match send P ch with
  | SendOk => fun w => (Ok (w_next_msg w),
                        mk_world (w_db w) (ESent ch (w_next_msg w) k lines :: w_log w)
                                 (w_next_msg w + 1)%Z (w_now w))
  | o => raise (exn_of_send o)
  end.

(** [message = await channel.fetch_message(m); await message.edit(...)] *)
Definition edit_card (P : presenter) (m : Z) (k : view_kind) (lines : list string) : M unit :=
  match fetch P m with
  | FetchEdited => log (EEdited m k lines)
  | FetchNotFound => raise NotFound
  | FetchForbidden => raise Forbidden
  | FetchOther => raise OtherError
  end.

(** [update_schedule_message], lines 164-220.  Registering the view with
    [bot.add_view] (errors printed) has no effect here. *)
Definition update_schedule_message (P : presenter) (rid ch : Z) (time_slot : string)
    (participants : list string) (reset_flag : bool) : M unit :=
  message_id <- db_select_message_id P rid ;;
  now <- get_now ;;
  match parse_time_slot (now / DAY) time_slot with
  | None => raise BadArgument
  | Some (_, end_time) =>
      let lines := render_participants participants in
      let kind := if (end_time <=? now)%Z && negb reset_flag then ViewEnded else ViewButtons in
      try_catch
        (match message_id with
         | Some m => edit_card P m kind lines
         | None => new <- send_card P ch kind lines ;; db_set_message_id P rid new
         end)
        (fun e => match e with
                  | NotFound => new <- send_card P ch kind lines ;; db_set_message_id P rid new
                  | _ => ret tt       (* Forbidden, and [except Exception], which
                                         also catches a failing [UPDATE] after
                                         the first send *)
                  end)
  end.

(** [await channel.send(...)] of an error notice. *)
Definition notify (P : presenter) (ch : Z) : M unit :=
  match send P ch with
  | SendOk => log (ENotice ch)
  | o => raise (exn_of_send o)
  end.

(** What the expiry task does once its sleep is over, lines 133-137. *)
Definition expire_now (P : presenter) (row_id channel_id : Z) (time_slot : string)
  : M unit :=
  db_set_participants row_id "" ;;;
  if channel_exists P channel_id
  then update_schedule_message P row_id channel_id time_slot [] false
  else ret tt.

(** The handlers of lines 141-152. *)
Definition end_handler (P : presenter) (channel_id : Z) (e : exn) : M unit :=
  match e with
  | NotFound | Forbidden => ret tt
  | _ => if channel_exists P channel_id then notify P channel_id else ret tt
  end.

(** [schedule_event_end], lines 124-152, from the moment the task starts.
    A time slot that does not parse raises before [channel] is bound, so
    the handler itself fails and the task ends with an error. *)
Definition schedule_event_end (P : presenter) (row_id channel_id : Z)
    (time_slot : string) : M unit :=
  now <- get_now ;;
  match parse_time_slot (now / DAY) time_slot with
  | None => raise BadArgument
  | Some (_, end_time) =>
      try_catch
        (let delay := (end_time - now)%Z in
         (if (0 <? delay)%Z then sleep delay else ret tt) ;;;
         expire_now P row_id channel_id time_slot)
        (end_handler P channel_id)
  end.

(** The body of the loop of [schedule_reset_task], lines 566-578. *)
Fixpoint reset_loop (P : presenter) (records : list row) : M unit :=
  match records with
  | [] => ret tt
  | r :: rest =>
      (if channel_exists P (r_channel_id r)
       then update_schedule_message P (r_id r) (r_channel_id r) (r_time_slot r) [] true
       else ret tt) ;;;
      reset_loop P rest
  end.

(** [schedule_reset_task], lines 559-581. *)
Definition schedule_reset_task (P : presenter) : M unit :=
  try_catch
    (db_clear_all ;;;
     records <- select_rows ;;
     reset_loop P records)
    (fun _ => ret tt).

(** What [on_ready] (lines 496-520) sets up for the rows it reads: a
    persistent view per row ([int(message_id)] fails on a NULL id and is
    printed) and the midnight loop. *)
Inductive startup_action :=
| RegisterView (row_id msg : Z)
| StartResetLoop
| ScheduleEnd (row_id : Z).

Definition on_ready (records : list row) (reset_running : bool) : list startup_action :=
  flat_map (fun r => match r_message_id r with
                     | Some m => [RegisterView (r_id r) m]
                     | None => []
                     end) records
  ++ (if reset_running then [] else [StartResetLoop]).

(** The expiry timers among the actions. *)
Definition timers (acts : list startup_action) : list Z :=
  flat_map (fun a => match a with ScheduleEnd rid => [rid] | _ => [] end) acts.

(** The messages a run of coroutines edited, most recent first. *)
Definition edits (l : list event) : list Z :=
  flat_map (fun e => match e with EEdited m _ _ => [m] | _ => [] end) l.

(** The messages a run of coroutines sent, most recent first. *)
Definition sent (l : list event) : list Z :=
  flat_map (fun e => match e with ESent _ m _ _ => [m] | _ => [] end) l.

(** No row of the store has id [rid]. *)
Definition absent (rid : Z) (w : world) : Prop :=
  forall r, In r (w_db w) -> r_id r <> rid.

(** Run from a world without row [rid], [m] leaves the store as it is and
    edits no message. *)
Definition keeps {A} (rid : Z) (m : M A) : Prop :=
  forall w, absent rid w ->
    w_db (snd (m w)) = w_db w /\ edits (w_log (snd (m w))) = edits (w_log w).

(* ------------------------------------------------------------------ *)
(** ** Concurrent join callbacks on one entry

    [JoinButton.callback] awaits [db_execute] for the SELECT and again for
    the UPDATE; the event loop may run other callbacks in between.  A
    callback is at its start, between the two awaits holding the list it
    computed from what it read, or done. *)

Inductive pc := PStart | PRead (computed : list string) | PDone.

Record join_call := mk_join_call { j_user_id : string; j_user_name : string }.

(** The participants column of the entry and every callback's point. *)
Record jstate := mk_jstate { js_column : string; js_calls : list (join_call * pc) }.

Definition step_call (column : string) (c : join_call * pc) : string * (join_call * pc) :=
  let (j, p) := c in
  match p with
  | PStart =>
      (column, (j, PRead (join_participants (get_participants_list column)
                                            (j_user_id j) (j_user_name j))))
  | PRead l => (store_participants l, (j, PDone))
  | PDone => (column, (j, PDone))
  end.

Fixpoint step_nth (n : nat) (column : string) (cs : list (join_call * pc))
  : string * list (join_call * pc) :=
  match cs, n with
  | [], _ => (column, [])
  | c :: t, O => let (col', c') := step_call column c in (col', c' :: t)
  | c :: t, S n' => let (col', t') := step_nth n' column t in (col', c :: t')
  end.

(** Run the callbacks in the order the event loop resumes them. *)
Fixpoint run (sched : list nat) (s : jstate) : jstate :=
  match sched with
  | [] => s
  | n :: rest =>
      let (col', cs') := step_nth n (js_column s) (js_calls s) in
      run rest (mk_jstate col' cs')
  end.

Definition start_calls (js : list join_call) : list (join_call * pc) :=
  map (fun j => (j, PStart)) js.

(** One callback from its SELECT to its UPDATE with nothing in between. *)
Definition join_stored (column : string) (j : join_call) : string :=
  store_participants (join_participants (get_participants_list column)
                                        (j_user_id j) (j_user_name j)).

(** Callback [i] runs both of its steps before callback [i+1] starts. *)
Fixpoint sequential_from (i n : nat) : list nat :=
  match n with
  | O => []
  | S n' => i :: i :: sequential_from (S i) n'
  end.

(* ------------------------------------------------------------------ *)
(** ** The card a reconciliation renders

    The view [update_schedule_message] attaches (line 176) and the lines
    of the embed, read off an event. *)

Definition view_kind_for (now : Z) (time_slot : string) (reset_flag : bool)
  : option view_kind :=
  match parse_time_slot (now / DAY) time_slot with
  | Some (_, end_time) =>
      Some (if (end_time <=? now)%Z && negb reset_flag then ViewEnded else ViewButtons)
  | None => None
  end.

Definition card_of (e : event) : option (view_kind * list string) :=
  match e with
  | ESent _ _ k l => Some (k, l)
  | EEdited _ k l => Some (k, l)
  | _ => None
  end.

(* ------------------------------------------------------------------ *)
(** ** The commands

    [show_schedule], lines 479-494: reconcile every row into the channel
    of the command ([ctx.channel]); on an empty table, say so. *)

Fixpoint show_loop (P : presenter) (ch : Z) (records : list row) : M unit :=
  match records with
  | [] => ret tt
  | r :: rest =>
      update_schedule_message P (r_id r) ch (r_time_slot r)
        (get_participants_list (r_participants r)) false ;;;
      show_loop P ch rest
  end.

Definition show_schedule (P : presenter) (ch : Z) : M unit :=
  records <- select_rows ;;
  match records with
  | [] => notify P ch
  | _ => show_loop P ch records
  end.

(** [if message_sending_enabled: await ctx.send(...)] *)
Definition notify_if (enabled : bool) (P : presenter) (ch : Z) : M unit :=
  if enabled then notify P ch else ret tt.

(** A command also sees the [sqlite_sequence] entry of [schedule] (the
    largest id handed out) and the expiry tasks it created with
    [bot.loop.create_task]. *)
Record cworld := mk_cworld {
  c_world : world;
  c_seq : Z;
  c_tasks : list Z      (** rows whose [schedule_event_end] task was created *)
}.

Definition CM (A : Type) := cworld -> result A * cworld.

Definition cret {A} (a : A) : CM A := fun c => (Ok a, c).
Definition cbind {A B} (m : CM A) (k : A -> CM B) : CM B :=
  fun c => match m c with
           | (Ok a, c') => k a c'
           | (Raise e, c') => (Raise e, c')
           end.
Definition ctry {A} (m : CM A) (h : exn -> CM A) : CM A :=
  fun c => match m c with
           | (Raise e, c') => h e c'
           | r => r
           end.
(** A coroutine of the bot run inside a command. *)
Definition lift {A} (m : M A) : CM A :=
  fun c => let (r, w') := m (c_world c) in (r, mk_cworld w' (c_seq c) (c_tasks c)).

Notation "x <-- m ;; k" := (cbind m (fun x => k)) (at level 61, m at next level, right associativity).
Notation "m ;;;; k" := (cbind m (fun _ => k)) (at level 61, right associativity).

Definition get_seq : CM Z := fun c => (Ok (c_seq c), c).
Definition set_seq (n : Z) : CM unit :=
  fun c => (Ok tt, mk_cworld (c_world c) n (c_tasks c)).
Definition create_task (rid : Z) : CM unit :=
  fun c => (Ok tt, mk_cworld (c_world c) (c_seq c) (c_tasks c ++ [rid])).

Definition max_id (rows : list row) : Z :=
  fold_right (fun r m => Z.max (r_id r) m) 0%Z rows.

(** The id [AUTOINCREMENT] gives a new row: one more than both the
    largest id ever handed out and the largest id present. *)
Definition next_rowid (seq : Z) (rows : list row) : Z :=
  (Z.max seq (max_id rows) + 1)%Z.

Definition same_key (server_name time_slot : string) (r : row) : bool :=
  String.eqb (r_server_name r) server_name && String.eqb (r_time_slot r) time_slot.

(** [INSERT INTO schedule (...) VALUES (?, ?, '', ?)] *)
Definition insert_row (server_name time_slot : string) (ch : Z) : CM unit :=
  fun c =>
    let w := c_world c in
    let rid := next_rowid (c_seq c) (w_db w) in
    (Ok tt,
     mk_cworld (mk_world (app (w_db w) [mk_row rid server_name time_slot "" ch None])
                         (w_log w) (w_next_msg w) (w_now w))
               rid (c_tasks c)).

(** [add_server], lines 361-441.  Its own database calls are modelled
    as returning, so its three [except aiosqlite.Error] branches are not
    reached; deleting the command message in [finally] has no effect
    here. *)
Definition add_server (P : presenter) (enabled : bool) (server_name time_slot : string)
    (ch : Z) : CM unit :=
  now <-- lift get_now ;;
  match parse_time_slot (now / DAY) time_slot with
  | None => lift (notify_if enabled P ch)
  | Some _ =>
      existing <-- lift select_rows ;;
      if existsb (same_key server_name time_slot) existing
      then lift (notify_if enabled P ch)
      else
        insert_row server_name time_slot ch ;;;;
        rows <-- lift select_rows ;;
        match find (same_key server_name time_slot) rows with
        | None => lift (notify_if enabled P ch)
        | Some r =>
            shown <-- ctry (lift (update_schedule_message P (r_id r) ch time_slot [] false)
                            ;;;; cret true)
                           (fun _ => lift (notify_if enabled P ch) ;;;; cret false) ;;
            if shown
            then create_task (r_id r) ;;;;
                 (if enabled then lift (show_schedule P ch) else cret tt)
            else cret tt
        end
  end.

(** [remove_server], lines 443-477.  [deletes m] says whether fetching
    and deleting message [m] succeeds; any failure there is printed.  The
    result says whether the message was deleted and whether the success
    text (rather than the warning) was chosen.  The final
    [ctx.message.delete()] has no effect here. *)
Definition remove_server (P : presenter) (enabled : bool) (deletes : Z -> bool)
    (ch rid : Z) : M (bool * bool) :=
  rows <- select_rows ;;
  match find (fun r => (r_id r =? rid)%Z) rows with
  | None => notify_if enabled P ch ;;; ret (false, false)
  | Some r =>
      let deleted := match r_message_id r with
                     | Some m => negb (m =? 0)%Z && negb (r_channel_id r =? 0)%Z
                                 && channel_exists P (r_channel_id r) && deletes m
                     | None => false
                     end in
      update_db (filter (fun r => negb (r_id r =? rid)%Z)) ;;;
      rows' <- select_rows ;;
      let count := length (filter (fun r => (r_id r =? rid)%Z) rows') in
      notify_if enabled P ch ;;;
      ret (deleted, Nat.eqb count 0)
  end.

(** [reset_db], lines 544-557: empty the table and its [sqlite_sequence]
    entry; the result is whether the success text was chosen. *)
Definition reset_db (P : presenter) (ch : Z) : CM bool :=
  lift (update_db (fun _ => [])) ;;;;
  set_seq 0 ;;;;
  rows <-- lift select_rows ;;
  lift (notify P ch) ;;;;
  cret (Nat.eqb (length rows) 0).

(** [mode.lower()] on ASCII text. *)
Definition lower_char (a : ascii) : ascii :=
  let n := nat_of_ascii a in
  if (65 <=? n)%nat && (n <=? 90)%nat then ascii_of_nat (n + 32) else a.

Fixpoint lower (s : string) : string :=
  match s with
  | EmptyString => EmptyString
  | String a t => String (lower_char a) (lower t)
  end.

Inductive message_reply := ReplyOn | ReplyOff | ReplyUsage.

(** The [message] command, lines 524-536: the new value of
    [message_sending_enabled] and the reply. *)
Definition message_cmd (enabled : bool) (mode : string) : bool * message_reply :=
  if String.eqb (lower mode) "on" then (true, ReplyOn)
  else if String.eqb (lower mode) "off" then (false, ReplyOff)
  else (enabled, ReplyUsage).

(* ------------------------------------------------------------------ *)
(** ** Observations used by the properties below *)

(** The id and the participants column of each row, in table order. *)
Definition rosters (rows : list row) : list (Z * string) :=
  map (fun r => (r_id r, r_participants r)) rows.

(** The [(server_name, time_slot)] key of each row. *)
Definition row_keys (rows : list row) : list (string * string) :=
  map (fun r => (r_server_name r, r_time_slot r)) rows.

(** Every card among the events [l] satisfies [ok]. *)
Definition cards_satisfy (ok : view_kind -> list string -> Prop) (l : list event) : Prop :=
  Forall (fun e => forall k ls, card_of e = Some (k, ls) -> ok k ls) l.

(** From any world, [m] only adds events to the log, and every card among
    them satisfies [ok]. *)
Definition logs_cards {A} (ok : view_kind -> list string -> Prop) (m : M A) : Prop :=
  forall w, exists new, w_log (snd (m w)) = app new (w_log w) /\ cards_satisfy ok new.

(** From any world, [m] keeps the id and the roster of every row. *)
Definition keeps_rosters {A} (m : M A) : Prop :=
  forall w, rosters (w_db (snd (m w))) = rosters (w_db w).

(* ================================================================== *)
(** * Properties *)

(** ** String lemmas *)

Lemma startswith_app (u v : string) : Py.startswith u (u ++ v) = true.
Proof. induction u as [|a u IH]; simpl; [reflexivity|now rewrite Ascii.eqb_refl, IH]. Qed.

Lemma contains_of_startswith (u s : string) :
  Py.startswith u s = true -> Py.contains u s = true.
Proof. intros H; destruct s; simpl; rewrite H; reflexivity. Qed.

Lemma contains_app (u v : string) : Py.contains u (u ++ v) = true.
Proof. apply contains_of_startswith, startswith_app. Qed.

Lemma split_char_not_nil (c : ascii) (s : string) : Py.split_char c s <> [].
Proof.
  induction s as [|d t IH]; simpl; [discriminate|].
  destruct (Ascii.eqb d c); [discriminate|].
  destruct (Py.split_char c t); discriminate.
Qed.

Lemma startswith_entry_uid (p : string) : Py.startswith (entry_uid p) p = true.
Proof.
  unfold entry_uid.
  induction p as [|d t IH]; simpl; [reflexivity|].
  destruct (Ascii.eqb d ":"); [reflexivity|].
  destruct (Py.split_char ":" t) as [|h tl] eqn:E.
  - now apply split_char_not_nil in E.
  - simpl. rewrite Ascii.eqb_refl. exact IH.
Qed.

Lemma contains_entry_uid (p : string) : Py.contains (entry_uid p) p = true.
Proof. apply contains_of_startswith, startswith_entry_uid. Qed.

(** A string without the separator splits into itself. *)
Lemma split_char_no_sep (c : ascii) (s : string) :
  Py.has_char c s = false -> Py.split_char c s = [s].
Proof.
  induction s as [|d t IH]; simpl; [reflexivity|].
  intros H; apply orb_false_iff in H as [H1 H2].
  rewrite H1, IH by exact H2; reflexivity.
Qed.

Lemma split_char_app (c : ascii) (a b : string) :
  Py.has_char c a = false -> Py.split_char c (a ++ String c b) = a :: Py.split_char c b.
Proof.
  induction a as [|d t IH]; simpl; intros H.
  - now rewrite Ascii.eqb_refl.
  - apply orb_false_iff in H as [H1 H2].
    rewrite H1, IH by exact H2; reflexivity.
Qed.

Lemma cut_char_app (c : ascii) (a b : string) :
  Py.has_char c a = false -> Py.cut_char c (a ++ String c b) = Some (a, b).
Proof.
  induction a as [|d t IH]; simpl; intros H.
  - now rewrite Ascii.eqb_refl.
  - apply orb_false_iff in H as [H1 H2].
    rewrite H1, IH by exact H2; reflexivity.
Qed.

Lemma cut_char_no_sep (c : ascii) (s : string) :
  Py.has_char c s = false -> Py.cut_char c s = None.
Proof.
  induction s as [|d t IH]; simpl; [reflexivity|].
  intros H; apply orb_false_iff in H as [H1 H2].
  rewrite H1, IH by exact H2; reflexivity.
Qed.

(** ** The roster transforms *)

Lemma join_participants_present (r : list string) (p u n : string) :
  In p r -> entry_uid p = u -> join_participants r u n = r.
Proof.
  intros Hin Hu; unfold join_participants.
  replace (existsb (fun q => Py.contains u q) r) with true; [reflexivity|].
  symmetry; apply existsb_exists; exists p; split; [exact Hin|].
  subst u; apply contains_entry_uid.
Qed.

Lemma join_participants_twice (r : list string) (u n n' : string) :
  join_participants (join_participants r u n) u n' = join_participants r u n.
Proof.
  unfold join_participants at 2 3.
  destruct (existsb (fun q => Py.contains u q) r) eqn:E.
  - unfold join_participants; now rewrite E.
  - unfold join_participants.
    replace (existsb (fun q => Py.contains u q) (r ++ [u ++ ":" ++ n])) with true;
      [reflexivity|].
    rewrite existsb_app; simpl; now rewrite contains_app, orb_true_r.
Qed.

Lemma join_participants_twice_length (u n n' : string) :
  length (join_participants (join_participants [] u n) u n') = 1%nat.
Proof. rewrite join_participants_twice; reflexivity. Qed.

Lemma leave_participants_idempotent (r : list string) (u : string) :
  leave_participants (leave_participants r u) u = leave_participants r u.
Proof.
  unfold leave_participants.
  induction r as [|p t IH]; simpl; [reflexivity|].
  destruct (negb (Py.contains u p)) eqn:E; simpl; [rewrite E, IH; reflexivity|exact IH].
Qed.

Lemma str_of_Z_tier (t : Z) :
  (0 <= t < 3)%Z -> Py.has_char ":" (Py.str_of_Z t) = false /\ Py.int (Py.str_of_Z t) = Some t.
Proof.
  intros H; assert (t = 0 \/ t = 1 \/ t = 2)%Z as [->|[->| ->]] by lia; split; reflexivity.
Qed.

(** [cycleDelay] on a well-formed entry ["uid:name:tier"]. *)
Lemma delay_entry_tier (u n : string) (t : Z) :
  Py.has_char ":" u = false -> Py.has_char ":" n = false -> (0 <= t < 3)%Z ->
  delay_entry u (u ++ ":" ++ n ++ ":" ++ Py.str_of_Z t)
  = Some (u ++ ":" ++ n ++ ":" ++ Py.str_of_Z ((t + 1) mod 3)).
Proof.
  intros Hu Hn Ht.
  destruct (str_of_Z_tier t Ht) as [Hs Hi].
  unfold delay_entry.
  cbn [String.append].
  rewrite split_char_app by exact Hu.
  rewrite split_char_app by exact Hn.
  rewrite split_char_no_sep by exact Hs.
  rewrite String.eqb_refl, Hi; reflexivity.
Qed.

Lemma delay_entry_three_times (u n : string) (t : Z) :
  Py.has_char ":" u = false -> Py.has_char ":" n = false -> (0 <= t < 3)%Z ->
  let e := u ++ ":" ++ n ++ ":" ++ Py.str_of_Z t in
  match delay_entry u e with
  | Some e1 => match delay_entry u e1 with
               | Some e2 => delay_entry u e2
               | None => None
               end
  | None => None
  end = Some e.
Proof.
  intros Hu Hn Ht; cbv zeta.
  rewrite delay_entry_tier by auto; cbv beta iota.
  rewrite delay_entry_tier by (auto; apply Z.mod_pos_bound; lia); cbv beta iota.
  rewrite delay_entry_tier by (auto; apply Z.mod_pos_bound; lia).
  do 4 f_equal.
  assert (t = 0 \/ t = 1 \/ t = 2)%Z as [->|[->| ->]] by lia; reflexivity.
Qed.

Lemma render_name_two_fields (u n : string) :
  Py.has_char ":" u = false -> Py.has_char ":" n = false ->
  render_name (u ++ ":" ++ n) = Some n.
Proof.
  intros Hu Hn; cbn [String.append].
  unfold render_name, Py.split_char_max2.
  rewrite cut_char_app, cut_char_no_sep by assumption; reflexivity.
Qed.

(** C3 *)
(** [join] decides membership with Python's substring test [user_id in p]:
    a new user whose id occurs inside another participant's entry (here in
    that participant's display name) is not appended, although no entry
    has that user id. *)
Theorem join_substring_not_appended :
  let r := ["222222222222222222:fan_of_123456789012345678"] in
  let u := "123456789012345678" in
  forallb (fun p => negb (String.eqb (entry_uid p) u)) r = true
  /\ join_participants r u "Bob" = r.
Proof. vm_compute. split; reflexivity. Qed.

(** C4 *)
(** [leave] removes every entry containing the user id as a substring: the
    entry of a different user whose display name contains that id is
    removed along with the leaving user's own entry. *)
Theorem leave_removes_substring_matches :
  let r := ["222222222222222222:fan_of_123456789012345678";
            "123456789012345678:Bob"] in
  let u := "123456789012345678" in
  entry_uid (hd "" r) <> u /\ leave_participants r u = [].
Proof. vm_compute. split; [discriminate|reflexivity]. Qed.

(** C5 *)
(** [cycleDelay] finds the user with the substring test: for a user id that
    only occurs inside another participant's display name, the callback
    reports success (no error message) instead of [ok=false]. *)
Theorem delay_substring_reports_ok :
  let r := ["222222222222222222:fan_of_123456789012345678"] in
  let u := "123456789012345678" in
  forallb (fun p => negb (String.eqb (entry_uid p) u)) r = true
  /\ delay_participants r u = DelayOk r.
Proof. vm_compute. split; reflexivity. Qed.

(** C10 *)
(** A display name containing [":"] makes the appended entry carry more
    than two fields; with ["x:1"] it renders with a lateness marker
    although nobody cycled a delay. *)
Theorem join_colon_name_three_fields :
  let e := "123456789012345678:x:1" in
  join_participants [] "123456789012345678" "x:1" = [e]
  /\ length (Py.split_char ":" e) = 3%nat
  /\ render_name e = Some ("x (+1" ++ LATE_MARK ++ ")").
Proof. vm_compute. repeat split; reflexivity. Qed.

(** C10 *)
(** When [join] appends (no stored entry contains the user id) and neither
    the user id nor the display name contains [":"], the new entry is
    ["uid:name"], two fields, rendered without a marker; the first
    [cycleDelay] on it writes the third field. *)
Theorem join_appends_two_fields (r : list string) (u n : string)
  (Habs : existsb (fun p => Py.contains u p) r = false)
  (Hu : Py.has_char ":" u = false) (Hn : Py.has_char ":" n = false) :
  join_participants r u n = app r [u ++ ":" ++ n]
  /\ Py.split_char ":" (u ++ ":" ++ n) = [u; n]
  /\ render_name (u ++ ":" ++ n) = Some n
  /\ delay_entry u (u ++ ":" ++ n) = Some (u ++ ":" ++ n ++ ":1").
Proof.
  cbn [String.append].
  assert (Hs : Py.split_char ":" (u ++ String ":" n) = [u; n])
    by (rewrite split_char_app, split_char_no_sep by assumption; reflexivity).
  split; [unfold join_participants; now rewrite Habs|].
  split; [exact Hs|].
  split.
  - apply render_name_two_fields; assumption.
  - unfold delay_entry; rewrite Hs, String.eqb_refl; reflexivity.
Qed.

Lemma join_appends_two_fields_witness :
  existsb (fun p => Py.contains "7" p) ["5:a"] = false
  /\ Py.has_char ":" "7" = false /\ Py.has_char ":" "b" = false
  /\ join_participants ["5:a"] "7" "b" = app ["5:a"] ["7" ++ ":" ++ "b"]
  /\ Py.split_char ":" ("7" ++ ":" ++ "b") = ["7"; "b"]
  /\ render_name ("7" ++ ":" ++ "b") = Some "b"
  /\ delay_entry "7" ("7" ++ ":" ++ "b") = Some ("7" ++ ":" ++ "b" ++ ":1").
Proof.
  assert (H1 : existsb (fun p => Py.contains "7" p) ["5:a"] = false) by reflexivity.
  assert (H2 : Py.has_char ":" "7" = false) by reflexivity.
  assert (H3 : Py.has_char ":" "b" = false) by reflexivity.
  split; [exact H1|]. split; [exact H2|]. split; [exact H3|].
  exact (join_appends_two_fields ["5:a"] "7" "b" H1 H2 H3).
Defined.

(** ** Splitting and joining on [", "] *)

Lemma split_comma_space_nocut (d : ascii) (t : string) :
  match t with
  | String e _ => Ascii.eqb d "," && Ascii.eqb e " "
  | EmptyString => false
  end = false ->
  Py.split_comma_space (String d t)
  = match Py.split_comma_space t with
    | h :: tl => String d h :: tl
    | [] => [String d ""]
    end.
Proof. intros H; cbn [Py.split_comma_space]; rewrite H; reflexivity. Qed.

Lemma split_comma_space_cut (y : string) :
  Py.split_comma_space (", " ++ y) = "" :: Py.split_comma_space y.
Proof. reflexivity. Qed.

Lemma split_comma_space_sep (x y : string) :
  Py.contains ", " x = false ->
  Py.split_comma_space (x ++ ", " ++ y) = x :: Py.split_comma_space y.
Proof.
  induction x as [|d x IH]; intros H; [apply split_comma_space_cut|].
  simpl in H; apply orb_false_iff in H as [H1 H2].
  specialize (IH H2).
  change ((String d x ++ ", " ++ y)) with (String d (x ++ ", " ++ y)).
  rewrite split_comma_space_nocut.
  - rewrite IH; reflexivity.
  - destruct x as [|e x'].
    + destruct (Ascii.eqb d ","); reflexivity.
    + rewrite andb_true_r in H1; exact H1.
Qed.

Lemma split_comma_space_alone (x : string) :
  Py.contains ", " x = false -> Py.split_comma_space x = [x].
Proof.
  induction x as [|d x IH]; intros H; [reflexivity|].
  simpl in H; apply orb_false_iff in H as [H1 H2].
  rewrite split_comma_space_nocut.
  - rewrite IH by exact H2; reflexivity.
  - destruct x as [|e x'].
    + reflexivity.
    + rewrite andb_true_r in H1; exact H1.
Qed.

Lemma split_concat (a : string) (t : list string) :
  Forall (fun p => Py.contains ", " p = false) (a :: t) ->
  Py.split_comma_space (String.concat ", " (a :: t)) = a :: t.
Proof.
  revert a; induction t as [|b t IH]; intros a H; inversion H as [|? ? Ha Ht]; subst.
  - apply split_comma_space_alone; exact Ha.
  - change (String.concat ", " (a :: b :: t)) with (a ++ ", " ++ String.concat ", " (b :: t)).
    rewrite split_comma_space_sep by exact Ha.
    rewrite IH by exact Ht; reflexivity.
Qed.

Lemma concat_not_empty (a : string) (t : list string) :
  a <> "" -> String.eqb (String.concat ", " (a :: t)) "" = false.
Proof.
  intros Ha; destruct t as [|b t]; simpl.
  - destruct a; [congruence|reflexivity].
  - destruct a; reflexivity.
Qed.

Lemma get_store_roundtrip (r : list string)
  (Hr : Forall (fun p => p <> "" /\ Py.contains ", " p = false) r) :
  get_participants_list (store_participants r) = r.
Proof.
  destruct r as [|a t]; [reflexivity|].
  unfold get_participants_list, store_participants, Py.join_comma_space.
  inversion Hr as [|? ? [Ha _] _]; subst.
  rewrite concat_not_empty by exact Ha.
  apply split_concat.
  eapply Forall_impl; [|exact Hr]; intros p [_ Hp]; exact Hp.
Qed.

(** The display of an entry is skipped exactly when it has no [":"], or
    when its third field passes [isdigit()] but [int()] rejects it. *)
Lemma render_entry_skipped (p : string) :
  render_entry p = None <->
  Py.cut_char ":" p = None
  \/ (exists a b c, Py.split_char_max2 ":" p = [a; b; c]
                    /\ Py.isdigit c = true /\ Py.int c = None).
Proof.
  unfold render_entry, render_name, Py.split_char_max2.
  destruct (Py.cut_char ":" p) as [[a r]|];
    [|split; [left; reflexivity|reflexivity]].
  destruct (Py.cut_char ":" r) as [[b rest]|].
  - destruct (Py.isdigit rest) eqn:Hd.
    + destruct (Py.int rest) as [v|] eqn:Hv.
      * split; [destruct (0 <? v)%Z; discriminate|].
        intros [H|(a' & b' & c' & H & _ & Hc)]; [discriminate|].
        injection H as <- <- <-; congruence.
      * split; [intros _; right; exists a, b, rest; auto|reflexivity].
    + split; [discriminate|].
      intros [H|(a' & b' & c' & H & Hc & _)]; [discriminate|].
      injection H as <- <- <-; congruence.
  - split; [discriminate|].
    intros [H|(a' & b' & c' & H & _)]; discriminate.
Qed.

(** C6 *)
(** The stored roster is not escaped: a display name containing the
    separator [", "] splits into two entries on the next read. *)
Theorem roster_roundtrip_fails_on_separator :
  get_participants_list (store_participants ["123:a, b"]) = ["123:a"; "b"]
  /\ get_participants_list (store_participants ["123:a, b"]) <> ["123:a, b"].
Proof. vm_compute. split; [reflexivity|discriminate]. Qed.

(** C6 *)
(** Reading back what the callbacks write gives the same list of entries
    for every roster whose entries are non-empty and free of [", "] (the
    empty roster included); the display skips exactly the entries without
    a [":"] and those whose third field passes [isdigit()] but not [int()]
    (a superscript digit such as ["²"]), and an entry ["uid:name"] without
    tier shows the bare name. *)
Theorem roster_roundtrip (r : list string)
  (Hr : Forall (fun p => p <> "" /\ Py.contains ", " p = false) r) :
  get_participants_list (store_participants r) = r
  /\ (forall p, render_entry p = None <->
                Py.cut_char ":" p = None
                \/ (exists a b c, Py.split_char_max2 ":" p = [a; b; c]
                                  /\ Py.isdigit c = true /\ Py.int c = None))
  /\ (forall u n, Py.has_char ":" u = false -> Py.has_char ":" n = false ->
                  render_name (u ++ ":" ++ n) = Some n).
Proof.
  split; [exact (get_store_roundtrip r Hr)|].
  split; [exact render_entry_skipped|exact render_name_two_fields].
Qed.

Lemma roster_roundtrip_witness :
  Forall (fun p => p <> "" /\ Py.contains ", " p = false) ["1:a"; "2:b:1"]
  /\ get_participants_list (store_participants ["1:a"; "2:b:1"]) = ["1:a"; "2:b:1"]
  /\ render_entry "uid:Team:²" = None.
Proof.
  assert (H : Forall (fun p => p <> "" /\ Py.contains ", " p = false) ["1:a"; "2:b:1"])
    by (repeat constructor; discriminate).
  split; [exact H|split].
  - exact (proj1 (roster_roundtrip ["1:a"; "2:b:1"] H)).
  - apply (proj2 (proj1 (proj2 (roster_roundtrip ["1:a"; "2:b:1"] H)) "uid:Team:²")).
    right; exists "uid", "Team", "²"; split; [reflexivity|split; vm_compute; reflexivity].
Defined.

(** ** [parse_time_slot] *)

Lemma decimal_value_range (c d : Z) : Py.decimal_value c = Some d -> (0 <= d < 10)%Z.
Proof.
  unfold Py.decimal_value.
  destruct (find _ Py.decimal_zeros) as [z|] eqn:E; [|discriminate].
  intros H; injection H as <-.
  apply find_some in E as [_ E]; apply andb_true_iff in E as [E1 E2].
  apply Z.leb_le in E1; apply Z.ltb_lt in E2; lia.
Qed.

Lemma some_eq {A} (x y : A) : Some x = Some y -> x = y.
Proof. congruence. Qed.

Lemma in_range_bounds (lo hi c : Z) : in_range lo hi c = true -> (lo <= c <= hi)%Z.
Proof.
  unfold in_range; intros H; apply andb_true_iff in H as [H1 H2].
  apply Z.leb_le in H1, H2; lia.
Qed.

Lemma parse_H_bounds (h : list Z) (v : Z) : parse_H h = Some v -> (0 <= v <= 23)%Z.
Proof.
  unfold parse_H; intros H.
  destruct h as [|a [|b [|c t]]]; try discriminate.
  - apply decimal_value_range in H; lia.
  - destruct ((a =? 50)%Z && in_range 48 51 b) eqn:E.
    + apply some_eq in H; subst v; apply andb_true_iff in E as [_ E]; apply in_range_bounds in E; lia.
    + destruct (in_range 48 49 a) eqn:Ea; [|discriminate].
      destruct (Py.decimal_value b) as [d|] eqn:Eb; [|discriminate].
      apply some_eq in H; subst v; apply in_range_bounds in Ea; apply decimal_value_range in Eb; lia.
Qed.

Lemma parse_M_bounds (m : list Z) (v : Z) : parse_M m = Some v -> (0 <= v <= 59)%Z.
Proof.
  unfold parse_M; intros H.
  destruct m as [|a [|b [|c t]]]; try discriminate.
  - apply decimal_value_range in H; lia.
  - destruct (in_range 48 53 a) eqn:Ea; [|discriminate].
    destruct (Py.decimal_value b) as [d|] eqn:Eb; [|discriminate].
    apply some_eq in H; subst v; apply in_range_bounds in Ea; apply decimal_value_range in Eb; lia.
Qed.

Lemma parse_hm_bounds (x : list Z) (v : Z) :
  parse_hm x = Some v -> (0 <= v < DAY)%Z.
Proof.
  unfold parse_hm, DAY; intros H.
  destruct (cut_cp 58 x) as [[h m]|]; [|discriminate].
  destruct (parse_H h) as [hh|] eqn:Eh; [|discriminate].
  destruct (parse_M m) as [mm|] eqn:Em; [|discriminate].
  injection H as <-.
  apply parse_H_bounds in Eh; apply parse_M_bounds in Em; lia.
Qed.

(** C7 *)
(** Two equal times of day give an empty window: [end = start]. *)
Theorem parse_equal_times_not_after :
  parse_time_slot 100 "20:00-20:00" = Some (100 * DAY + 72000, 100 * DAY + 72000)%Z.
Proof. vm_compute. reflexivity. Qed.

(** C7 *)
(** For valid halves, [start] is today at the first time and [end] today
    at the second, moved to the next day exactly when it is earlier than
    [start]; hence [start <= end < start + 1 day], and [end > start]
    unless the two times of day are equal. *)
Theorem parse_time_slot_window (today : Z) (raw : string) (st en : Z)
  (H : parse_time_slot today raw = Some (st, en)) :
  exists a b hs he,
    Py.split_char "-" raw = [a; b]
    /\ parse_hm (strip a) = Some hs /\ parse_hm (strip b) = Some he
    /\ st = (today * DAY + hs)%Z
    /\ en = (if (he <? hs)%Z then (today + 1) * DAY + he else today * DAY + he)%Z
    /\ (st <= en < st + DAY)%Z
    /\ (st = en <-> hs = he).
Proof.
  unfold parse_time_slot in H.
  destruct (Py.split_char "-" raw) as [|a [|b [|c t]]] eqn:Es; try discriminate.
  destruct (parse_hm (strip a)) as [hs|] eqn:Ea; [|discriminate].
  destruct (parse_hm (strip b)) as [he|] eqn:Eb; [|discriminate].
  pose proof (parse_hm_bounds _ _ Ea) as Ba.
  pose proof (parse_hm_bounds _ _ Eb) as Bb.
  injection H as <- <-.
  exists a, b, hs, he.
  do 3 (split; [first [reflexivity|assumption]|]).
  split; [reflexivity|].
  assert (Hc : ((today * DAY + he <? today * DAY + hs)%Z) = (he <? hs)%Z).
  { destruct (Z.ltb_spec (today * DAY + he) (today * DAY + hs));
      destruct (Z.ltb_spec he hs); lia. }
  rewrite Hc; unfold DAY in *.
  destruct (Z.ltb_spec he hs); (split; [lia|]); split; try lia; split; lia.
Qed.

Lemma parse_time_slot_window_witness :
  parse_time_slot 100 "23:30-00:30" = Some (100 * DAY + 84600, 101 * DAY + 1800)%Z
  /\ exists a b hs he,
    Py.split_char "-" "23:30-00:30" = [a; b]
    /\ parse_hm (strip a) = Some hs /\ parse_hm (strip b) = Some he
    /\ (100 * DAY + 84600 = 100 * DAY + hs)%Z
    /\ (101 * DAY + 1800 = if (he <? hs)%Z then (100 + 1) * DAY + he else 100 * DAY + he)%Z
    /\ (100 * DAY + 84600 <= 101 * DAY + 1800 < 100 * DAY + 84600 + DAY)%Z
    /\ (100 * DAY + 84600 = 101 * DAY + 1800 <-> hs = he)%Z.
Proof.
  assert (H : parse_time_slot 100 "23:30-00:30" = Some (100 * DAY + 84600, 101 * DAY + 1800)%Z)
    by (vm_compute; reflexivity).
  split; [exact H|].
  exact (parse_time_slot_window 100 "23:30-00:30" _ _ H).
Defined.

(** ** Expiry of an entry that was deleted *)

Lemma absent_same_db (rid : Z) (w w' : world) :
  w_db w' = w_db w -> absent rid w -> absent rid w'.
Proof. unfold absent; intros E H r; rewrite E; apply H. Qed.

Lemma keeps_ret {A} (rid : Z) (a : A) : keeps rid (ret a).
Proof. intros w _; split; reflexivity. Qed.

Lemma keeps_raise {A} (rid : Z) (e : exn) : keeps rid (@raise A e).
Proof. intros w _; split; reflexivity. Qed.

Lemma keeps_bind {A B} (rid : Z) (m : M A) (k : A -> M B) :
  keeps rid m -> (forall a, keeps rid (k a)) -> keeps rid (bind m k).
Proof.
  intros Hm Hk w Hw; unfold bind.
  specialize (Hm w Hw).
  destruct (m w) as [[a|e] w1]; simpl in Hm |- *; [|exact Hm].
  destruct Hm as [E1 L1].
  destruct (Hk a w1 (absent_same_db rid w w1 E1 Hw)) as [E2 L2].
  split; congruence.
Qed.

Lemma keeps_try {A} (rid : Z) (m : M A) (h : exn -> M A) :
  keeps rid m -> (forall e, keeps rid (h e)) -> keeps rid (try_catch m h).
Proof.
  intros Hm Hh w Hw; unfold try_catch.
  specialize (Hm w Hw).
  destruct (m w) as [[a|e] w1]; simpl in Hm |- *; [exact Hm|].
  destruct Hm as [E1 L1].
  destruct (Hh e w1 (absent_same_db rid w w1 E1 Hw)) as [E2 L2].
  split; congruence.
Qed.

Lemma keeps_get_now (rid : Z) : keeps rid get_now.
Proof. intros w _; split; reflexivity. Qed.

Lemma keeps_sleep (rid d : Z) : keeps rid (sleep d).
Proof. intros w _; split; reflexivity. Qed.

Lemma keeps_send_card (rid : Z) P ch k lines : keeps rid (send_card P ch k lines).
Proof.
  unfold send_card; destruct (send P ch); try apply keeps_raise.
  intros w _; split; reflexivity.
Qed.

Lemma keeps_notify (rid : Z) P ch : keeps rid (notify P ch).
Proof.
  unfold notify; destruct (send P ch); try apply keeps_raise.
  intros w _; split; reflexivity.
Qed.

Lemma map_absent (rid : Z) (f : row -> row) (db : list row) :
  (forall r, r_id r <> rid -> f r = r) ->
  (forall r, In r db -> r_id r <> rid) -> map f db = db.
Proof.
  intros Hf Hdb; induction db as [|r t IH]; simpl; [reflexivity|].
  rewrite Hf, IH; [reflexivity| |]; intros; apply Hdb; simpl; auto.
Qed.

Lemma keeps_db_set_participants (rid : Z) (v : string) :
  keeps rid (db_set_participants rid v).
Proof.
  intros w Hw; split; [|reflexivity]; simpl.
  apply (map_absent rid); [|exact Hw].
  intros r Hr; unfold set_participants_row.
  destruct (Z.eqb_spec (r_id r) rid); [contradiction|reflexivity].
Qed.

Lemma keeps_db_set_message_id (P : presenter) (rid m : Z) :
  keeps rid (db_set_message_id P rid m).
Proof.
  unfold db_set_message_id; destruct (update_ok P rid); [|apply keeps_raise].
  intros w Hw; split; [|reflexivity]; simpl.
  apply (map_absent rid); [|exact Hw].
  intros r Hr; unfold set_message_id_row.
  destruct (Z.eqb_spec (r_id r) rid); [contradiction|reflexivity].
Qed.

Lemma select_message_id_absent (P : presenter) (rid : Z) (w : world) :
  select_ok P rid = true -> absent rid w -> db_select_message_id P rid w = (Ok None, w).
Proof.
  intros Hs Hw; unfold db_select_message_id; rewrite Hs.
  replace (find (fun r => (r_id r =? rid)%Z) (w_db w)) with (@None row); [reflexivity|].
  unfold absent in Hw; induction (w_db w) as [|r t IH]; simpl; [reflexivity|].
  destruct (Z.eqb_spec (r_id r) rid) as [E|_].
  - exfalso; exact (Hw r (or_introl eq_refl) E).
  - apply IH; intros r' Hr'; apply Hw; right; exact Hr'.
Qed.

Lemma keeps_select {B} (P : presenter) (rid : Z) (k : option Z -> M B) :
  keeps rid (k None) -> keeps rid (bind (db_select_message_id P rid) k).
Proof.
  intros Hk w Hw.
  destruct (select_ok P rid) eqn:Hs.
  - unfold bind; rewrite (select_message_id_absent P rid w Hs Hw); exact (Hk w Hw).
  - unfold bind, db_select_message_id; rewrite Hs; split; reflexivity.
Qed.

Lemma keeps_update_schedule_message (P : presenter) (rid ch : Z) (ts : string)
    (ps : list string) (rf : bool) :
  keeps rid (update_schedule_message P rid ch ts ps rf).
Proof.
  unfold update_schedule_message; apply keeps_select.
  apply keeps_bind; [apply keeps_get_now|intros now].
  destruct (parse_time_slot (now / DAY) ts) as [[st en]|]; [|apply keeps_raise].
  apply keeps_try.
  - apply keeps_bind; [apply keeps_send_card|intros; apply keeps_db_set_message_id].
  - intros []; try apply keeps_ret.
    apply keeps_bind; [apply keeps_send_card|intros; apply keeps_db_set_message_id].
Qed.

Lemma keeps_schedule_event_end (P : presenter) (rid ch : Z) (ts : string) :
  keeps rid (schedule_event_end P rid ch ts).
Proof.
  unfold schedule_event_end.
  apply keeps_bind; [apply keeps_get_now|intros now].
  destruct (parse_time_slot (now / DAY) ts) as [[st en]|]; [|apply keeps_raise].
  apply keeps_try.
  - apply keeps_bind; [destruct (0 <? en - now)%Z; [apply keeps_sleep|apply keeps_ret]|].
    intros _; unfold expire_now.
    apply keeps_bind; [apply keeps_db_set_participants|intros _].
    destruct (channel_exists P ch); [apply keeps_update_schedule_message|apply keeps_ret].
  - intros e; unfold end_handler; destruct e; try apply keeps_ret;
      destruct (channel_exists P ch); (apply keeps_notify || apply keeps_ret).
Qed.

(** C8 *)
(** The expiry of a deleted entry still reconciles: the [UPDATE]s match no
    row, the [SELECT] finds no message id, and [update_schedule_message]
    sends a new message (here message 500) to the channel. *)
Theorem expiry_after_delete_sends :
  let P := mk_presenter (fun _ => true) (fun _ => FetchEdited) (fun _ => SendOk)
                        (fun _ => true) (fun _ => true) in
  let w := mk_world [mk_row 2 "Beta" "18:00-19:00" "" 5 (Some 40%Z)] [] 500
                    (100 * DAY + 23 * 3600)%Z in
  let w' := snd (schedule_event_end P 1 5 "20:00-22:00" w) in
  w_db w' = w_db w /\ sent (w_log w') = [500%Z].
Proof. vm_compute. split; reflexivity. Qed.

(** C8 *)
(** If no row has the entry's id when its expiry timer runs, the store is
    left exactly as it was (no roster cleared, no message id persisted)
    and no message is edited; only new messages can be sent. *)
Theorem expiry_after_delete_keeps_store (P : presenter) (rid ch : Z) (ts : string)
  (w : world) (Habs : absent rid w) :
  w_db (snd (schedule_event_end P rid ch ts w)) = w_db w
  /\ edits (w_log (snd (schedule_event_end P rid ch ts w))) = edits (w_log w).
Proof. exact (keeps_schedule_event_end P rid ch ts w Habs). Qed.

Lemma expiry_after_delete_keeps_store_witness :
  let P := mk_presenter (fun _ => true) (fun _ => FetchEdited) (fun _ => SendOk)
                        (fun _ => true) (fun _ => true) in
  let w := mk_world [mk_row 2 "Beta" "18:00-19:00" "" 5 (Some 40%Z)] [] 500
                    (100 * DAY + 23 * 3600)%Z in
  absent 1 w
  /\ w_db (snd (schedule_event_end P 1 5 "20:00-22:00" w)) = w_db w
  /\ edits (w_log (snd (schedule_event_end P 1 5 "20:00-22:00" w))) = edits (w_log w).
Proof.
  intros P w.
  assert (H : absent 1 w) by (intros r [<-|[]]; discriminate).
  split; [exact H|].
  exact (expiry_after_delete_keeps_store P 1 5 "20:00-22:00" w H).
Defined.

(** ** Errors during the midnight reset *)

(** C9 *)
(** A replacement send that fails after a vanished message escapes
    [update_schedule_message]; the reset pass stops there and the second
    entry's message (20) is never edited, though editing it would succeed. *)
Theorem reset_error_skips_later_entries :
  let P := mk_presenter (fun _ => true)
             (fun m => if (m =? 10)%Z then FetchNotFound else FetchEdited)
             (fun _ => SendForbidden) (fun _ => true) (fun _ => true) in
  let w := mk_world [mk_row 1 "Alpha" "20:00-22:00" "1:a" 5 (Some 10%Z);
                     mk_row 2 "Beta" "18:00-19:00" "2:b" 5 (Some 20%Z)] [] 500
                    (100 * DAY + 12 * 3600)%Z in
  fetch P 20 = FetchEdited
  /\ fst (schedule_reset_task P w) = Ok tt
  /\ edits (w_log (snd (schedule_reset_task P w))) = [].
Proof. vm_compute. repeat split; reflexivity. Qed.

(** C9 *)
(** The reset task itself never raises, so the [tasks.loop] runs again the
    next midnight.  [update_schedule_message] raises only when the
    [SELECT message_id] fails, when the stored time slot does not parse,
    when, the message being gone, the replacement send fails or the
    [UPDATE] recording the new message fails, or when the first send
    answers not-found (the replacement send then fails too); an entry whose
    update raises ends the pass and the later entries are skipped. *)
Theorem reset_errors_isolation :
  (forall P w, fst (schedule_reset_task P w) = Ok tt)
  /\ (forall P rid ch ts ps rf w e,
        fst (update_schedule_message P rid ch ts ps rf w) = Raise e ->
        select_ok P rid = false
        \/ (select_ok P rid = true
            /\ (parse_time_slot (w_now w / DAY) ts = None
                \/ ((exists m, fst (db_select_message_id P rid w) = Ok (Some m)
                               /\ fetch P m = FetchNotFound)
                    /\ (send P ch <> SendOk \/ update_ok P rid = false))
                \/ (fst (db_select_message_id P rid w) = Ok None
                    /\ send P ch = SendNotFound))))
  /\ (forall P r rest w e w1,
        channel_exists P (r_channel_id r) = true ->
        update_schedule_message P (r_id r) (r_channel_id r) (r_time_slot r) [] true w
        = (Raise e, w1) ->
        reset_loop P (r :: rest) w = (Raise e, w1)).
Proof.
  split; [|split].
  - intros P w; unfold schedule_reset_task, try_catch.
    match goal with
    | |- fst (match ?x with _ => _ end) = _ => destruct x as [[[]|e] w1]
    end; reflexivity.
  - intros P rid ch ts ps rf w e H.
    destruct (select_ok P rid) eqn:Hs; [right; split; [reflexivity|]|left; reflexivity].
    unfold update_schedule_message, bind, get_now, db_select_message_id in H.
    unfold db_select_message_id; rewrite Hs in H |- *.
    cbn [fst snd] in H |- *.
    destruct (parse_time_slot (w_now w / DAY) ts) as [[st en]|]; [right|left; reflexivity].
    destruct (match find (fun r => (r_id r =? rid)%Z) (w_db w) with
              | Some r => r_message_id r
              | None => None
              end) as [m|].
    + left; split; [|].
      * exists m; split; [reflexivity|].
        unfold try_catch, edit_card in H.
        destruct (fetch P m) eqn:Ef; unfold log, raise, ret in H; cbn in H;
          try discriminate; reflexivity.
      * unfold try_catch, edit_card in H.
        destruct (fetch P m); unfold log, raise, ret in H; cbn in H; try discriminate.
        unfold send_card, db_set_message_id in H.
        destruct (send P ch) eqn:Es; cbn in H; try (left; discriminate).
        destruct (update_ok P rid); [discriminate|right; reflexivity].
    + right; split; [reflexivity|].
      unfold try_catch, send_card, db_set_message_id in H.
      destruct (send P ch) eqn:Es; unfold raise, ret in H; cbn in H;
        try destruct (update_ok P rid); cbn in H; try discriminate; reflexivity.
  - intros P r rest w e w1 Hc Hu; simpl.
    rewrite Hc; unfold bind; rewrite Hu; reflexivity.
Qed.

(** ** Expiry timers at start-up *)

(** C2 *)
(** [on_ready] re-registers the views and starts the midnight loop but
    schedules no expiry: an entry ending at 22:00, read at noon, gets no
    timer. *)
Theorem on_ready_schedules_no_expiry :
  let r := mk_row 1 "Alpha" "20:00-22:00" "" 5 (Some 40%Z) in
  let now := (100 * DAY + 12 * 3600)%Z in
  parse_time_slot (now / DAY) (r_time_slot r) = Some (100 * DAY + 72000, 100 * DAY + 79200)%Z
  /\ (now < 100 * DAY + 79200)%Z
  /\ ~ In (r_id r) (timers (on_ready [r] false)).
Proof.
  vm_compute. split; [reflexivity|split; [reflexivity|intros []]].
Qed.

(** C2 *)
(** Start-up registers no expiry timer for any row (timers come only from
    [add_server]).  An expiry task clears the roster at once when the end
    has already passed (no sleep), and otherwise sleeps [end - now]
    first. *)
Theorem expiry_timers_startup_and_fire :
  (forall records running, timers (on_ready records running) = [])
  /\ (forall P rid ch ts w st en,
        parse_time_slot (w_now w / DAY) ts = Some (st, en) ->
        schedule_event_end P rid ch ts w
        = (if (en <=? w_now w)%Z
           then try_catch (expire_now P rid ch ts) (end_handler P ch) w
           else try_catch (sleep (en - w_now w) ;;; expire_now P rid ch ts)
                          (end_handler P ch) w)).
Proof.
  split.
  - intros records running; unfold on_ready, timers.
    rewrite flat_map_app.
    replace (flat_map _ (if running then [] else [StartResetLoop])) with (@nil Z)
      by (destruct running; reflexivity).
    rewrite app_nil_r.
    induction records as [|r t IH]; [reflexivity|].
    simpl; rewrite flat_map_app, IH.
    destruct (r_message_id r); reflexivity.
  - intros P rid ch ts w st en H.
    unfold schedule_event_end, bind at 1, get_now; cbn [fst snd].
    rewrite H.
    destruct (Z.leb_spec en (w_now w)).
    + replace (0 <? en - w_now w)%Z with false by (symmetry; apply Z.ltb_ge; lia).
      reflexivity.
    + replace (0 <? en - w_now w)%Z with true by (symmetry; apply Z.ltb_lt; lia).
      reflexivity.
Qed.

(** ** Concurrent joins *)

Lemma step_nth_app (pre : list (join_call * pc)) (col : string) (c : join_call * pc)
    (t : list (join_call * pc)) :
  step_nth (length pre) col (app pre (c :: t))
  = let (col', c') := step_call col c in (col', app pre (c' :: t)).
Proof.
  induction pre as [|c0 pre IH]; simpl; [reflexivity|].
  rewrite IH; destruct (step_call col c); reflexivity.
Qed.

Lemma run_sequential_from (js : list join_call) (pre : list (join_call * pc))
    (col : string) :
  js_column (run (sequential_from (length pre) (length js))
                 (mk_jstate col (app pre (start_calls js))))
  = fold_left join_stored js col.
Proof.
  revert pre col; induction js as [|j js IH]; intros pre col; [reflexivity|].
  cbn [sequential_from length start_calls map run js_column js_calls].
  fold (start_calls js).
  rewrite step_nth_app; cbn [step_call].
  rewrite step_nth_app; cbn [step_call js_column js_calls].
  replace (app pre ((j, PDone) :: start_calls js))
    with (app (app pre [(j, PDone)]) (start_calls js))
    by (rewrite <- app_assoc; reflexivity).
  replace (S (length pre)) with (length (app pre [(j, PDone)]))
    by (rewrite length_app; simpl; lia).
  rewrite IH; reflexivity.
Qed.

(** C1 *)
(** Two join callbacks that both read the empty roster before either
    writes: the second write overwrites the first, and user ["1"] is lost. *)
Theorem concurrent_joins_lose_update :
  let s := run [0; 1; 0; 1]%nat
               (mk_jstate "" (start_calls [mk_join_call "1" "a"; mk_join_call "2" "b"])) in
  js_column s = "2:b"
  /\ existsb (fun p => String.eqb (entry_uid p) "1")
             (get_participants_list (js_column s)) = false.
Proof. vm_compute. split; reflexivity. Qed.

(** C1 *)
(** When the join callbacks run one after another, each from its SELECT to
    its UPDATE without another callback in between, the final column is
    the successive application of each callback's read-join-write. *)
Theorem sequential_joins_compose (js : list join_call) (col : string) :
  js_column (run (sequential_from 0 (length js)) (mk_jstate col (start_calls js)))
  = fold_left join_stored js col.
Proof. exact (run_sequential_from js [] col). Qed.

(* ================================================================== *)
(** * Further properties of the code *)

(** ** The effect combinators *)

Lemma logs_cards_ret {A} ok (a : A) : logs_cards ok (ret a).
Proof. intros w; exists []; split; [reflexivity|constructor]. Qed.

Lemma logs_cards_raise {A} ok (e : exn) : logs_cards ok (@raise A e).
Proof. intros w; exists []; split; [reflexivity|constructor]. Qed.

Lemma logs_cards_bind {A B} ok (m : M A) (k : A -> M B) :
  logs_cards ok m -> (forall a, logs_cards ok (k a)) -> logs_cards ok (bind m k).
Proof.
  intros Hm Hk w; unfold bind.
  destruct (Hm w) as [n1 [E1 F1]].
  destruct (m w) as [[a|e] w1]; cbn in E1 |- *.
  - destruct (Hk a w1) as [n2 [E2 F2]].
    exists (app n2 n1); split.
    + rewrite E2, E1, app_assoc; reflexivity.
    + apply Forall_app; split; assumption.
  - exists n1; split; assumption.
Qed.

Lemma logs_cards_try {A} ok (m : M A) (h : exn -> M A) :
  logs_cards ok m -> (forall e, logs_cards ok (h e)) -> logs_cards ok (try_catch m h).
Proof.
  intros Hm Hh w; unfold try_catch.
  destruct (Hm w) as [n1 [E1 F1]].
  destruct (m w) as [[a|e] w1]; cbn in E1 |- *.
  - exists n1; split; assumption.
  - destruct (Hh e w1) as [n2 [E2 F2]].
    exists (app n2 n1); split.
    + rewrite E2, E1, app_assoc; reflexivity.
    + apply Forall_app; split; assumption.
Qed.

Lemma logs_cards_update_db ok f : logs_cards ok (update_db f).
Proof. intros w; exists []; split; [reflexivity|constructor]. Qed.

Lemma logs_cards_select ok : logs_cards ok select_rows.
Proof. intros w; exists []; split; [reflexivity|constructor]. Qed.

Lemma logs_cards_get_now ok : logs_cards ok get_now.
Proof. intros w; exists []; split; [reflexivity|constructor]. Qed.

Lemma logs_cards_sleep ok d : logs_cards ok (sleep d).
Proof.
  intros w; exists [ESlept d]; split; [reflexivity|].
  repeat constructor; discriminate.
Qed.

Lemma logs_cards_notify ok P ch : logs_cards ok (notify P ch).
Proof.
  intros w; unfold notify.
  destruct (send P ch); cbn;
    first [exists [ENotice ch]; split; [reflexivity|repeat constructor; discriminate]
          |exists []; split; [reflexivity|constructor]].
Qed.

Lemma logs_cards_notify_if ok en P ch : logs_cards ok (notify_if en P ch).
Proof. destruct en; [apply logs_cards_notify|apply logs_cards_ret]. Qed.

Lemma logs_cards_weaken {A} (ok ok' : view_kind -> list string -> Prop) (m : M A) :
  (forall k l, ok k l -> ok' k l) -> logs_cards ok m -> logs_cards ok' m.
Proof.
  intros Hi Hm w; destruct (Hm w) as [n [E F]]; exists n; split; [exact E|].
  eapply Forall_impl; [|exact F]; cbn; eauto.
Qed.

Lemma rosters_set_message_id (rid m : Z) (rows : list row) :
  rosters (map (set_message_id_row rid m) rows) = rosters rows.
Proof.
  unfold rosters, row_keys; induction rows as [|r t IH]; [reflexivity|]; cbn [map].
  rewrite IH; unfold set_message_id_row; destruct (r_id r =? rid)%Z; reflexivity.
Qed.

Lemma row_keys_set_message_id (rid m : Z) (rows : list row) :
  row_keys (map (set_message_id_row rid m) rows) = row_keys rows.
Proof.
  unfold rosters, row_keys; induction rows as [|r t IH]; [reflexivity|]; cbn [map].
  rewrite IH; unfold set_message_id_row; destruct (r_id r =? rid)%Z; reflexivity.
Qed.

Lemma keeps_rosters_ret {A} (a : A) : keeps_rosters (ret a).
Proof. intros w; reflexivity. Qed.

Lemma keeps_rosters_bind {A B} (m : M A) (k : A -> M B) :
  keeps_rosters m -> (forall a, keeps_rosters (k a)) -> keeps_rosters (bind m k).
Proof.
  intros Hm Hk w; unfold bind; specialize (Hm w).
  destruct (m w) as [[a|e] w1]; cbn in Hm |- *; [rewrite Hk; exact Hm|exact Hm].
Qed.

Lemma keeps_rosters_try {A} (m : M A) (h : exn -> M A) :
  keeps_rosters m -> (forall e, keeps_rosters (h e)) -> keeps_rosters (try_catch m h).
Proof.
  intros Hm Hh w; unfold try_catch; specialize (Hm w).
  destruct (m w) as [[a|e] w1]; cbn in Hm |- *; [exact Hm|rewrite Hh; exact Hm].
Qed.

Lemma keeps_rosters_notify P ch : keeps_rosters (notify P ch).
Proof. intros w; unfold notify; destruct (send P ch); reflexivity. Qed.

Lemma keeps_rosters_notify_if en P ch : keeps_rosters (notify_if en P ch).
Proof. destruct en; [apply keeps_rosters_notify|apply keeps_rosters_ret]. Qed.

Ltac unfold_update :=
  unfold update_schedule_message, bind, try_catch, db_select_message_id, get_now,
    edit_card, send_card, db_set_message_id, update_db, log, raise, ret;
  cbn [fst snd w_db w_log w_now w_next_msg];
  match goal with
  | |- context [if select_ok ?P ?r then _ else _] => destruct (select_ok P r)
  end;
  cbn [fst snd w_db w_log w_now w_next_msg].

Ltac split_presenter :=
  repeat match goal with
         | |- context [match fetch ?P ?m with _ => _ end] => destruct (fetch P m)
         | |- context [match send ?P ?c with _ => _ end] => destruct (send P c)
         | |- context [if update_ok ?P ?r then _ else _] => destruct (update_ok P r)
         end; cbn.

(** ** What one reconciliation does *)

Lemma update_schedule_message_store_gen (P : presenter) (rid ch : Z) (ts : string)
    (ps : list string) (rf : bool) (w : world) :
  w_db (snd (update_schedule_message P rid ch ts ps rf w)) = w_db w
  \/ exists k ls,
      w_log (snd (update_schedule_message P rid ch ts ps rf w))
      = ESent ch (w_next_msg w) k ls :: w_log w
      /\ w_db (snd (update_schedule_message P rid ch ts ps rf w))
         = map (set_message_id_row rid (w_next_msg w)) (w_db w).
Proof.
  unfold_update; [|left; reflexivity].
  destruct (parse_time_slot (w_now w / DAY) ts) as [[st en]|]; [|left; reflexivity].
  destruct (match find _ (w_db w) with Some r => r_message_id r | None => None end)
    as [m|]; split_presenter;
  first [left; reflexivity | right; do 2 eexists; split; reflexivity].
Qed.

Lemma update_schedule_message_cards_gen (P : presenter) (rid ch : Z) (ts : string)
    (ps : list string) (rf : bool) (w : world) :
  exists new,
    w_log (snd (update_schedule_message P rid ch ts ps rf w)) = app new (w_log w)
    /\ cards_satisfy (fun k ls => view_kind_for (w_now w) ts rf = Some k
                                  /\ ls = render_participants ps) new.
Proof.
  unfold view_kind_for, cards_satisfy.
  unfold_update; [|exists []; split; [reflexivity|constructor]].
  destruct (parse_time_slot (w_now w / DAY) ts) as [[st en]|];
    [|exists []; split; [reflexivity|constructor]].
  destruct (match find _ (w_db w) with Some r => r_message_id r | None => None end)
    as [m|]; split_presenter;
  first [exists []; split; [reflexivity|constructor]
        |eexists [_]; split; [reflexivity|]
        |eexists [_; _]; split; [reflexivity|]];
  repeat apply Forall_cons; try apply Forall_nil;
  cbn; intros k ls H; injection H as <- <-; split; reflexivity.
Qed.

Lemma keeps_rosters_update_schedule_message P rid ch ts ps rf :
  keeps_rosters (update_schedule_message P rid ch ts ps rf).
Proof.
  intros w.
  destruct (update_schedule_message_store_gen P rid ch ts ps rf w) as [E|[k [ls [_ E]]]];
    rewrite E; [reflexivity|apply rosters_set_message_id].
Qed.

Lemma update_schedule_message_keys P rid ch ts ps rf w :
  row_keys (w_db (snd (update_schedule_message P rid ch ts ps rf w))) = row_keys (w_db w).
Proof.
  destruct (update_schedule_message_store_gen P rid ch ts ps rf w) as [E|[k [ls [_ E]]]];
    rewrite E; [reflexivity|apply row_keys_set_message_id].
Qed.

(** A reconciliation with the reset flag set and no participants renders
    only empty cards with the buttons. *)
Lemma logs_cards_reset_update P rid ch ts :
  logs_cards (fun k ls => k = ViewButtons /\ ls = []) (update_schedule_message P rid ch ts [] true).
Proof.
  intros w.
  destruct (update_schedule_message_cards_gen P rid ch ts [] true w) as [n [E F]].
  exists n; split; [exact E|].
  eapply Forall_impl; [|exact F]; cbn.
  intros e He k ls Hc; destruct (He k ls Hc) as [Hk Hl]; split; [|exact Hl].
  unfold view_kind_for in Hk.
  destruct (parse_time_slot _ ts) as [[? ?]|]; [|discriminate].
  rewrite andb_false_r in Hk; injection Hk as <-; reflexivity.
Qed.

(** [update_schedule_message] (lines 164-220) writes nothing to the store
    but the message id of its own row: either the store is left as it was,
    or the call's one event is the sending of a new message to the channel
    and the row's id is set to that message. *)
Theorem update_schedule_message_store (P : presenter) (rid ch : Z) (ts : string)
    (ps : list string) (rf : bool) (w : world) :
  w_db (snd (update_schedule_message P rid ch ts ps rf w)) = w_db w
  \/ exists k ls,
      w_log (snd (update_schedule_message P rid ch ts ps rf w))
      = ESent ch (w_next_msg w) k ls :: w_log w
      /\ w_db (snd (update_schedule_message P rid ch ts ps rf w))
         = map (set_message_id_row rid (w_next_msg w)) (w_db w).
Proof. exact (update_schedule_message_store_gen P rid ch ts ps rf w). Qed.

(** Every card [update_schedule_message] sends or edits carries the view
    chosen from the current time, the re-parsed end of the slot and the
    reset flag (the [Ended] view exactly when the end has passed and the
    flag is off), and the display lines of the participants passed in; it
    only adds events to the log. *)
Theorem update_schedule_message_cards (P : presenter) (rid ch : Z) (ts : string)
    (ps : list string) (rf : bool) (w : world) :
  exists new,
    w_log (snd (update_schedule_message P rid ch ts ps rf w)) = app new (w_log w)
    /\ cards_satisfy (fun k ls => view_kind_for (w_now w) ts rf = Some k
                                  /\ ls = render_participants ps) new.
Proof. exact (update_schedule_message_cards_gen P rid ch ts ps rf w). Qed.

(** ** Parsing a slot on different days *)


(** Whether [parse_time_slot] (lines 52-65) accepts a slot does not
    depend on the day it is parsed on, and the times it gives move by
    whole days with that day. *)
Theorem parse_time_slot_shift (d d' : Z) (ts : string) :
  parse_time_slot d' ts
  = option_map (fun p => (fst p + (d' - d) * DAY, snd p + (d' - d) * DAY)%Z)
               (parse_time_slot d ts).
Proof.
  unfold parse_time_slot.
  destruct (Py.split_char "-" ts) as [|a [|b [|c t]]]; try reflexivity.
  destruct (parse_hm (strip a)) as [hs|]; [|reflexivity].
  destruct (parse_hm (strip b)) as [he|]; [|reflexivity].
  cbn [option_map fst snd].
  destruct (Z.ltb_spec (d' * DAY + he) (d' * DAY + hs)),
           (Z.ltb_spec (d * DAY + he) (d * DAY + hs));
    f_equal; f_equal; lia.
Qed.



(** ** The midnight reset *)

Lemma keeps_rosters_reset_loop P records : keeps_rosters (reset_loop P records).
Proof.
  induction records as [|r rest IH]; [apply keeps_rosters_ret|]; cbn [reset_loop].
  apply keeps_rosters_bind; [|intros _; exact IH].
  destruct (channel_exists P (r_channel_id r));
    [apply keeps_rosters_update_schedule_message|apply keeps_rosters_ret].
Qed.

Lemma logs_cards_reset_loop P records :
  logs_cards (fun k ls => k = ViewButtons /\ ls = []) (reset_loop P records).
Proof.
  induction records as [|r rest IH]; [apply logs_cards_ret|]; cbn [reset_loop].
  apply logs_cards_bind; [|intros _; exact IH].
  destruct (channel_exists P (r_channel_id r));
    [apply logs_cards_reset_update|apply logs_cards_ret].
Qed.

Lemma rosters_clear_all (rows : list row) :
  rosters (map (fun r => set_participants_row (r_id r) "" r) rows)
  = map (fun r => (r_id r, ""%string)) rows.
Proof.
  unfold rosters; induction rows as [|r t IH]; [reflexivity|]; cbn [map].
  rewrite IH; unfold set_participants_row; rewrite Z.eqb_refl; reflexivity.
Qed.

(** After [schedule_reset_task] (lines 559-581) every row has an empty
    roster and the rows keep their ids, whatever Discord does: the
    rosters are cleared before the first message is touched, and the
    message updates that follow, failing or not, only write message
    ids. *)
Theorem schedule_reset_task_empties_rosters (P : presenter) (w : world) :
  rosters (w_db (snd (schedule_reset_task P w))) = map (fun r => (r_id r, ""%string)) (w_db w).
Proof.
  unfold schedule_reset_task, try_catch, bind, db_clear_all, update_db, select_rows.
  cbn [fst snd w_db].
  match goal with
  | |- context [reset_loop P ?l ?w1] =>
      pose proof (keeps_rosters_reset_loop P l w1) as K; destruct (reset_loop P l w1) as [[a|e] w2]
  end; cbn in K |- *; rewrite K; apply rosters_clear_all.
Qed.

(** Every card the midnight reset sends or edits is an empty roster with
    the join, delay and leave buttons, never the [Ended] view, whatever
    the slot and the time. *)
Theorem schedule_reset_task_cards (P : presenter) :
  logs_cards (fun k ls => k = ViewButtons /\ ls = []) (schedule_reset_task P).
Proof.
  unfold schedule_reset_task, db_clear_all.
  apply logs_cards_try; [|intros; apply logs_cards_ret].
  apply logs_cards_bind; [apply logs_cards_update_db|intros _].
  apply logs_cards_bind; [apply logs_cards_select|intros records].
  apply logs_cards_reset_loop.
Qed.

(** ** The expiry task *)

Lemma keeps_rosters_end_handler P ch e : keeps_rosters (end_handler P ch e).
Proof.
  unfold end_handler; destruct e; try apply keeps_rosters_ret;
    destruct (channel_exists P ch); first [apply keeps_rosters_notify|apply keeps_rosters_ret].
Qed.


Lemma rosters_set_participants (rid : Z) (rows : list row) :
  rosters (map (set_participants_row rid "") rows)
  = map (fun r => (r_id r, if (r_id r =? rid)%Z then ""%string else r_participants r)) rows.
Proof.
  unfold rosters; induction rows as [|r t IH]; [reflexivity|]; cbn [map].
  rewrite IH; unfold set_participants_row; destruct (r_id r =? rid)%Z; reflexivity.
Qed.

Lemma rosters_try {A} (m : M A) (h : exn -> M A) (w : world) :
  (forall e, keeps_rosters (h e)) ->
  rosters (w_db (snd (try_catch m h w))) = rosters (w_db (snd (m w))).
Proof.
  intros Hh; unfold try_catch.
  destruct (m w) as [[a|e] w1]; [reflexivity|apply Hh].
Qed.

Lemma expire_now_rosters P rid ch ts w :
  rosters (w_db (snd (expire_now P rid ch ts w)))
  = map (fun r => (r_id r, if (r_id r =? rid)%Z then ""%string else r_participants r)) (w_db w).
Proof.
  unfold expire_now, bind, db_set_participants, update_db; cbn beta iota.
  destruct (channel_exists P ch);
    [rewrite keeps_rosters_update_schedule_message|]; apply rosters_set_participants.
Qed.

(** Once a slot parses, the expiry task [schedule_event_end]
    (lines 124-152) empties the roster of its row and leaves every other
    roster as it is, whether or not the channel is found and whatever
    the message update does. *)
Theorem schedule_event_end_clears_roster (P : presenter) (rid ch : Z) (ts : string)
    (w : world) (st en : Z)
    (Hp : parse_time_slot (w_now w / DAY) ts = Some (st, en)) :
  rosters (w_db (snd (schedule_event_end P rid ch ts w)))
  = map (fun r => (r_id r, if (r_id r =? rid)%Z then ""%string else r_participants r)) (w_db w).
Proof.
  unfold schedule_event_end.
  unfold bind at 1; unfold get_now; cbn beta iota; rewrite Hp.
  rewrite rosters_try by apply keeps_rosters_end_handler.
  destruct (0 <? en - w_now w)%Z; unfold bind, sleep, ret; cbn beta iota;
    rewrite expire_now_rosters; reflexivity.
Qed.

Lemma schedule_event_end_clears_roster_witness :
  let w := mk_world [mk_row 1 "Alpha" "20:00-22:00" "7:a, 8:b" 5 (Some 40%Z);
                     mk_row 2 "Beta" "21:00-23:00" "9:c" 5 None] [] 500
                    (100 * DAY + 12 * 3600)%Z in
  let P := mk_presenter (fun _ => true) (fun _ => FetchOther) (fun _ => SendOther)
                        (fun _ => true) (fun _ => true) in
  parse_time_slot (w_now w / DAY) "20:00-22:00" = Some (100 * DAY + 72000, 100 * DAY + 79200)%Z
  /\ rosters (w_db (snd (schedule_event_end P 1 5 "20:00-22:00" w)))
     = map (fun r => (r_id r, if (r_id r =? 1)%Z then ""%string else r_participants r)) (w_db w).
Proof.
  intros w P.
  assert (H : parse_time_slot (w_now w / DAY) "20:00-22:00"
              = Some (100 * DAY + 72000, 100 * DAY + 79200)%Z) by (vm_compute; reflexivity).
  split; [exact H|].
  exact (schedule_event_end_clears_roster P 1 5 "20:00-22:00" w _ _ H).
Defined.




(** ** The commands *)

Lemma keeps_rosters_select : keeps_rosters select_rows.
Proof. intros w; reflexivity. Qed.

Lemma keeps_rosters_show_loop P ch records : keeps_rosters (show_loop P ch records).
Proof.
  induction records as [|r rest IH]; [apply keeps_rosters_ret|]; cbn [show_loop].
  apply keeps_rosters_bind; [apply keeps_rosters_update_schedule_message|intros _; exact IH].
Qed.

Lemma keeps_rosters_show_schedule P ch : keeps_rosters (show_schedule P ch).
Proof.
  unfold show_schedule; apply keeps_rosters_bind; [apply keeps_rosters_select|].
  intros [|r t]; [apply keeps_rosters_notify|apply keeps_rosters_show_loop].
Qed.

Lemma notify_db P ch w : w_db (snd (notify P ch w)) = w_db w.
Proof. unfold notify; destruct (send P ch); reflexivity. Qed.

Lemma notify_if_db en P ch w : w_db (snd (notify_if en P ch w)) = w_db w.
Proof. destruct en; [apply notify_db|reflexivity]. Qed.

Lemma show_loop_keys P ch records w :
  row_keys (w_db (snd (show_loop P ch records w))) = row_keys (w_db w).
Proof.
  revert w; induction records as [|r rest IH]; intros w; [reflexivity|]; cbn [show_loop].
  unfold bind at 1.
  pose proof (update_schedule_message_keys P (r_id r) ch (r_time_slot r)
                (get_participants_list (r_participants r)) false w) as K.
  destruct (update_schedule_message _ _ _ _ _ _ w) as [[u|e] w1]; cbn in K |- *;
    [rewrite IH|]; exact K.
Qed.

Lemma show_schedule_keys P ch w :
  row_keys (w_db (snd (show_schedule P ch w))) = row_keys (w_db w).
Proof.
  unfold show_schedule, bind, select_rows; cbn beta iota.
  destruct (w_db w) as [|r t] eqn:E.
  - rewrite notify_db, E; reflexivity.
  - rewrite show_loop_keys, E; reflexivity.
Qed.

(** [show_schedule] (lines 479-494) never changes a roster or an id: it
    only re-renders the cards (writing message ids); on an empty table it
    leaves the store as it is and posts at most the one notice. *)
Theorem show_schedule_keeps_rosters (P : presenter) (ch : Z) :
  keeps_rosters (show_schedule P ch)
  /\ forall w, w_db w = [] ->
       w_db (snd (show_schedule P ch w)) = []
       /\ (w_log (snd (show_schedule P ch w)) = w_log w
           \/ w_log (snd (show_schedule P ch w)) = ENotice ch :: w_log w).
Proof.
  split; [apply keeps_rosters_show_schedule|].
  intros w E; unfold show_schedule, bind, select_rows; cbn beta iota; rewrite E.
  unfold notify; destruct (send P ch); cbn; rewrite ?E; auto.
Qed.

Lemma find_app_last {A} (f : A -> bool) (l : list A) (x : A) :
  existsb f l = false -> f x = true -> find f (app l [x]) = Some x.
Proof.
  induction l as [|y t IH]; cbn; intros Hl Hx; [rewrite Hx; reflexivity|].
  apply orb_false_iff in Hl as [Hy Ht]; rewrite Hy; exact (IH Ht Hx).
Qed.

Lemma max_id_bound (rows : list row) (r : row) : In r rows -> (r_id r <= max_id rows)%Z.
Proof.
  unfold max_id; induction rows as [|y t IH]; cbn [In fold_right]; [contradiction|].
  intros [<-|H]; [apply Z.le_max_l|].
  specialize (IH H); etransitivity; [exact IH|apply Z.le_max_r].
Qed.

Lemma add_server_unchanged_gen P en name slot ch c :
  (forall st en', parse_time_slot (w_now (c_world c) / DAY) slot = Some (st, en') ->
                  existsb (same_key name slot) (w_db (c_world c)) = true) ->
  w_db (c_world (snd (add_server P en name slot ch c))) = w_db (c_world c)
  /\ c_seq (snd (add_server P en name slot ch c)) = c_seq c
  /\ c_tasks (snd (add_server P en name slot ch c)) = c_tasks c.
Proof.
  intros H.
  destruct c as [w sq tk]; cbn [c_world c_seq c_tasks] in *.
  unfold add_server, cbind, lift, get_now, select_rows; cbn [c_world c_seq c_tasks].
  destruct (parse_time_slot (w_now w / DAY) slot) as [[st en']|];
    [cbn [c_world c_seq c_tasks]; rewrite (H st en' eq_refl); cbn [c_world c_seq c_tasks]
    |cbn [c_world c_seq c_tasks]];
    pose proof (notify_if_db en P ch w) as D;
    destruct (notify_if en P ch w) as [r w'];
    cbn in D |- *; auto.
Qed.

Lemma add_server_new_gen P en name slot ch c st en'
    (Hp : parse_time_slot (w_now (c_world c) / DAY) slot = Some (st, en'))
    (Hx : existsb (same_key name slot) (w_db (c_world c)) = false) :
  let rid := next_rowid (c_seq c) (w_db (c_world c)) in
  let w1 := mk_world (app (w_db (c_world c)) [mk_row rid name slot "" ch None])
                     (w_log (c_world c)) (w_next_msg (c_world c)) (w_now (c_world c)) in
  rosters (w_db (c_world (snd (add_server P en name slot ch c))))
    = app (rosters (w_db (c_world c))) [(rid, ""%string)]
  /\ row_keys (w_db (c_world (snd (add_server P en name slot ch c))))
    = app (row_keys (w_db (c_world c))) [(name, slot)]
  /\ c_seq (snd (add_server P en name slot ch c)) = rid
  /\ c_tasks (snd (add_server P en name slot ch c))
     = match fst (update_schedule_message P rid ch slot [] false w1) with
       | Ok _ => app (c_tasks c) [rid]
       | Raise _ => c_tasks c
       end.
Proof.
  cbv zeta.
  destruct c as [w sq tk]; cbn [c_world c_seq c_tasks] in *.
  unfold add_server, cbind, lift, get_now, select_rows; cbn [c_world c_seq c_tasks].
  rewrite Hp; cbn [c_world c_seq c_tasks]; rewrite Hx; cbn [c_world c_seq c_tasks].
  unfold insert_row; cbn [c_world c_seq c_tasks w_db].
  rewrite find_app_last
    by (exact Hx || (unfold same_key; cbn; rewrite !String.eqb_refl; reflexivity)).
  unfold ctry, cret, create_task; cbn [c_world c_seq c_tasks w_db r_id].
  match goal with
  | |- context [update_schedule_message P ?rid ch slot [] false ?w1] =>
      pose proof (keeps_rosters_update_schedule_message P rid ch slot [] false w1) as R1;
      pose proof (update_schedule_message_keys P rid ch slot [] false w1) as K1;
      destruct (update_schedule_message P rid ch slot [] false w1) as [[u|e] w2]
  end; cbn [fst snd w_db] in R1, K1 |- *.
  - destruct en; cbn [fst snd c_world c_seq c_tasks].
    + pose proof (keeps_rosters_show_schedule P ch w2) as R2.
      pose proof (show_schedule_keys P ch w2) as K2.
      destruct (show_schedule P ch w2) as [r3 w3]; cbn [fst snd c_world c_seq c_tasks] in *.
      rewrite R2, R1, K2, K1; unfold rosters, row_keys; rewrite !map_app.
      repeat split; reflexivity.
    + rewrite R1, K1; unfold rosters, row_keys; rewrite !map_app.
      repeat split; reflexivity.
  - cbn [c_world c_seq c_tasks]; pose proof (notify_if_db en P ch w2) as D.
    destruct (notify_if en P ch w2) as [[v|e3] w3]; cbn [fst snd c_world c_seq c_tasks] in *;
      rewrite D, R1, K1; unfold rosters, row_keys; rewrite !map_app;
      repeat split; reflexivity.
Qed.

(** [add_server] (lines 361-441) rejects a slot [parse_time_slot]
    refuses and a [(server_name, time_slot)] pair that is already in the
    table: the store, the [AUTOINCREMENT] counter and the expiry tasks
    stay as they were (at most an error notice is posted). *)
Theorem add_server_rejects (P : presenter) (enabled : bool) (name slot : string) (ch : Z)
    (c : cworld)
    (H : parse_time_slot (w_now (c_world c) / DAY) slot = None
         \/ existsb (same_key name slot) (w_db (c_world c)) = true) :
  w_db (c_world (snd (add_server P enabled name slot ch c))) = w_db (c_world c)
  /\ c_seq (snd (add_server P enabled name slot ch c)) = c_seq c
  /\ c_tasks (snd (add_server P enabled name slot ch c)) = c_tasks c.
Proof.
  apply add_server_unchanged_gen; intros st en' Hp.
  destruct H as [H|H]; [congruence|exact H].
Qed.

Lemma add_server_rejects_witness :
  let c := mk_cworld (mk_world [mk_row 3 "Alpha" "20:00-22:00" "7:a" 5 (Some 40%Z)] [] 500
                               (100 * DAY + 12 * 3600)%Z) 3 [3%Z] in
  let P := mk_presenter (fun _ => true) (fun _ => FetchEdited) (fun _ => SendOk)
                        (fun _ => true) (fun _ => true) in
  (parse_time_slot (w_now (c_world c) / DAY) "20:00-22:00" = None
   \/ existsb (same_key "Alpha" "20:00-22:00") (w_db (c_world c)) = true)
  /\ w_db (c_world (snd (add_server P true "Alpha" "20:00-22:00" 5 c))) = w_db (c_world c)
  /\ c_seq (snd (add_server P true "Alpha" "20:00-22:00" 5 c)) = c_seq c
  /\ c_tasks (snd (add_server P true "Alpha" "20:00-22:00" 5 c)) = c_tasks c.
Proof.
  intros c P.
  assert (H : parse_time_slot (w_now (c_world c) / DAY) "20:00-22:00" = None
              \/ existsb (same_key "Alpha" "20:00-22:00") (w_db (c_world c)) = true)
    by (right; vm_compute; reflexivity).
  split; [exact H|].
  exact (add_server_rejects P true "Alpha" "20:00-22:00" 5 c H).
Defined.

(** A new [(server_name, time_slot)] pair with a valid slot is stored as
    one new row at the end of the table, with an empty roster and an id
    above the counter and above every id present (so never one handed out
    before); the counter moves to that id, and the expiry task of the row
    is created exactly when the first rendering of its card did not
    raise.  The rows already there keep their ids, rosters and keys. *)
Theorem add_server_inserts (P : presenter) (enabled : bool) (name slot : string) (ch : Z)
    (c : cworld) (st en : Z)
    (Hp : parse_time_slot (w_now (c_world c) / DAY) slot = Some (st, en))
    (Hx : existsb (same_key name slot) (w_db (c_world c)) = false) :
  let rid := next_rowid (c_seq c) (w_db (c_world c)) in
  let w1 := mk_world (app (w_db (c_world c)) [mk_row rid name slot "" ch None])
                     (w_log (c_world c)) (w_next_msg (c_world c)) (w_now (c_world c)) in
  rosters (w_db (c_world (snd (add_server P enabled name slot ch c))))
    = app (rosters (w_db (c_world c))) [(rid, ""%string)]
  /\ row_keys (w_db (c_world (snd (add_server P enabled name slot ch c))))
    = app (row_keys (w_db (c_world c))) [(name, slot)]
  /\ (c_seq c < rid)%Z /\ (forall r, In r (w_db (c_world c)) -> (r_id r < rid)%Z)
  /\ c_seq (snd (add_server P enabled name slot ch c)) = rid
  /\ c_tasks (snd (add_server P enabled name slot ch c))
     = match fst (update_schedule_message P rid ch slot [] false w1) with
       | Ok _ => app (c_tasks c) [rid]
       | Raise _ => c_tasks c
       end.
Proof.
  cbv zeta.
  destruct (add_server_new_gen P enabled name slot ch c st en Hp Hx) as [R [K [S T]]].
  split; [exact R|]; split; [exact K|].
  unfold next_rowid in *.
  split; [lia|]; split; [|split; [exact S|exact T]].
  intros r Hr; pose proof (max_id_bound _ r Hr); lia.
Qed.

Lemma add_server_inserts_witness :
  let c := mk_cworld (mk_world [mk_row 3 "Alpha" "20:00-22:00" "7:a" 5 (Some 40%Z)] [] 500
                               (100 * DAY + 12 * 3600)%Z) 4 [3%Z] in
  let P := mk_presenter (fun _ => true) (fun _ => FetchEdited) (fun _ => SendOk)
                        (fun _ => true) (fun _ => true) in
  parse_time_slot (w_now (c_world c) / DAY) "21:00-23:00"
    = Some (100 * DAY + 75600, 100 * DAY + 82800)%Z
  /\ existsb (same_key "Beta" "21:00-23:00") (w_db (c_world c)) = false
  /\ let rid := next_rowid (c_seq c) (w_db (c_world c)) in
     let w1 := mk_world (app (w_db (c_world c)) [mk_row rid "Beta" "21:00-23:00" "" 5 None])
                        (w_log (c_world c)) (w_next_msg (c_world c)) (w_now (c_world c)) in
     rosters (w_db (c_world (snd (add_server P true "Beta" "21:00-23:00" 5 c))))
       = app (rosters (w_db (c_world c))) [(rid, ""%string)]
     /\ row_keys (w_db (c_world (snd (add_server P true "Beta" "21:00-23:00" 5 c))))
       = app (row_keys (w_db (c_world c))) [("Beta", "21:00-23:00")]
     /\ (c_seq c < rid)%Z /\ (forall r, In r (w_db (c_world c)) -> (r_id r < rid)%Z)
     /\ c_seq (snd (add_server P true "Beta" "21:00-23:00" 5 c)) = rid
     /\ c_tasks (snd (add_server P true "Beta" "21:00-23:00" 5 c))
        = match fst (update_schedule_message P rid 5 "21:00-23:00" [] false w1) with
          | Ok _ => app (c_tasks c) [rid]
          | Raise _ => c_tasks c
          end.
Proof.
  intros c P.
  assert (Hp : parse_time_slot (w_now (c_world c) / DAY) "21:00-23:00"
               = Some (100 * DAY + 75600, 100 * DAY + 82800)%Z) by (vm_compute; reflexivity).
  assert (Hx : existsb (same_key "Beta" "21:00-23:00") (w_db (c_world c)) = false)
    by (vm_compute; reflexivity).
  split; [exact Hp|split; [exact Hx|]].
  exact (add_server_inserts P true "Beta" "21:00-23:00" 5 c _ _ Hp Hx).
Defined.

Lemma not_in_row_keys name slot rows :
  existsb (same_key name slot) rows = false -> ~ In (name, slot) (row_keys rows).
Proof.
  unfold row_keys; intros H Hin.
  apply in_map_iff in Hin as [r [Er Hr]].
  assert (Hs : same_key name slot r = true).
  { unfold same_key; injection Er as -> ->; rewrite !String.eqb_refl; reflexivity. }
  rewrite (proj2 (existsb_exists _ _) (ex_intro _ r (conj Hr Hs))) in H; discriminate.
Qed.

(** One run of [add_server] on its own keeps the [(server_name,
    time_slot)] pairs of the table pairwise distinct: it inserts only after
    its [SELECT] found no row with the pair, and the rest of the command
    only writes message ids.  The check and the [INSERT] are separated by
    an [await], so two runs interleaved there are not covered. *)
Theorem add_server_keys_unique (P : presenter) (enabled : bool) (name slot : string)
    (ch : Z) (c : cworld)
    (Hu : NoDup (row_keys (w_db (c_world c)))) :
  NoDup (row_keys (w_db (c_world (snd (add_server P enabled name slot ch c))))).
Proof.
  destruct (parse_time_slot (w_now (c_world c) / DAY) slot) as [[st en]|] eqn:Hp.
  - destruct (existsb (same_key name slot) (w_db (c_world c))) eqn:Hx.
    + destruct (add_server_unchanged_gen P enabled name slot ch c) as [E _];
        [intros; exact Hx|rewrite E; exact Hu].
    + destruct (add_server_new_gen P enabled name slot ch c st en Hp Hx) as [_ [K _]].
      rewrite K; apply NoDup_app; [exact Hu|repeat constructor; intros []|].
      intros a Ha [<-|[]]; exact (not_in_row_keys _ _ _ Hx Ha).
  - destruct (add_server_unchanged_gen P enabled name slot ch c) as [E _];
      [intros st en' H; congruence|rewrite E; exact Hu].
Qed.

Lemma add_server_keys_unique_witness :
  let c := mk_cworld (mk_world [mk_row 3 "Alpha" "20:00-22:00" "7:a" 5 (Some 40%Z)] [] 500
                               (100 * DAY + 12 * 3600)%Z) 4 [3%Z] in
  let P := mk_presenter (fun _ => true) (fun _ => FetchEdited) (fun _ => SendOk)
                        (fun _ => true) (fun _ => true) in
  NoDup (row_keys (w_db (c_world c)))
  /\ NoDup (row_keys (w_db (c_world (snd (add_server P true "Beta" "21:00-23:00" 5 c))))).
Proof.
  intros c P.
  assert (Hu : NoDup (row_keys (w_db (c_world c)))) by (repeat constructor; intros []).
  split; [exact Hu|].
  exact (add_server_keys_unique P true "Beta" "21:00-23:00" 5 c Hu).
Defined.

Lemma filter_find_none {A} (f : A -> bool) (l : list A) :
  find f l = None -> filter (fun x => negb (f x)) l = l.
Proof.
  induction l as [|x t IH]; cbn; [reflexivity|].
  destruct (f x); [discriminate|cbn; intros H; rewrite (IH H); reflexivity].
Qed.

Lemma filter_filter_neg {A} (f : A -> bool) (l : list A) :
  filter f (filter (fun x => negb (f x)) l) = [].
Proof.
  induction l as [|x t IH]; cbn; [reflexivity|].
  destruct (f x) eqn:E; cbn; [exact IH|rewrite E; exact IH].
Qed.

(** [remove_server] (lines 443-477) leaves exactly the rows with another
    id, in their order, whether or not the id exists and whatever happens
    to the message; when it returns, it has chosen the success text
    exactly when a row with the id existed (never the warning), whatever
    the deletion of the message did. *)
Theorem remove_server_deletes (P : presenter) (enabled : bool) (deletes : Z -> bool)
    (ch rid : Z) (w : world) :
  w_db (snd (remove_server P enabled deletes ch rid w))
    = filter (fun r => negb (r_id r =? rid)%Z) (w_db w)
  /\ forall d b, fst (remove_server P enabled deletes ch rid w) = Ok (d, b) ->
       b = existsb (fun r => (r_id r =? rid)%Z) (w_db w).
Proof.
  unfold remove_server, bind, select_rows, ret; cbn beta iota.
  destruct (find (fun r => (r_id r =? rid)%Z) (w_db w)) as [r|] eqn:Ef.
  - unfold update_db; cbn beta iota.
    match goal with
    | |- context [notify_if enabled P ch ?w1] =>
        pose proof (notify_if_db enabled P ch w1) as D;
        destruct (notify_if enabled P ch w1) as [[u|e] w2]
    end; cbn [fst snd w_db] in D |- *; rewrite D; (split; [reflexivity|]);
      intros d b Hb; [|discriminate].
    injection Hb as _ <-.
    apply find_some in Ef as [Hin Hr].
    rewrite filter_filter_neg; symmetry; apply existsb_exists; exists r; auto.
  - pose proof (notify_if_db enabled P ch w) as D.
    destruct (notify_if enabled P ch w) as [[u|e] w2]; cbn [fst snd] in D |- *;
      rewrite D, (filter_find_none _ _ Ef); (split; [reflexivity|]);
      intros d b Hb; [|discriminate].
    injection Hb as _ <-.
    symmetry; apply not_true_is_false; intros Hx.
    apply existsb_exists in Hx as [x [Hx Hfx]].
    rewrite (find_none _ _ Ef x Hx) in Hfx; discriminate.
Qed.

Lemma reset_db_gen P ch c :
  w_db (c_world (snd (reset_db P ch c))) = []
  /\ w_now (c_world (snd (reset_db P ch c))) = w_now (c_world c)
  /\ c_seq (snd (reset_db P ch c)) = 0%Z
  /\ c_tasks (snd (reset_db P ch c)) = c_tasks c
  /\ forall b, fst (reset_db P ch c) = Ok b -> b = true.
Proof.
  unfold reset_db, cbind, lift, update_db, set_seq, select_rows, notify, cret, log, raise.
  cbn [c_world c_seq c_tasks w_db w_now].
  destruct (send P ch); cbn; repeat split; try reflexivity;
    intros b Hb; try discriminate; injection Hb as <-; reflexivity.
Qed.

(** After [reset_db], ids start again from 1: the next [add_server] of a
    valid slot stores a single row, with id 1 and an empty roster. *)
Theorem reset_db_then_add_server_id_one (P : presenter) (ch ch' : Z) (enabled : bool)
    (name slot : string) (c : cworld) (st en : Z)
    (Hp : parse_time_slot (w_now (c_world c) / DAY) slot = Some (st, en)) :
  rosters (w_db (c_world (snd (add_server P enabled name slot ch' (snd (reset_db P ch c))))))
  = [(1%Z, ""%string)]
  /\ c_seq (snd (add_server P enabled name slot ch' (snd (reset_db P ch c)))) = 1%Z.
Proof.
  destruct (reset_db_gen P ch c) as [Edb [Enow [Eseq _]]].
  assert (Hp1 : parse_time_slot (w_now (c_world (snd (reset_db P ch c))) / DAY) slot
                = Some (st, en)) by (rewrite Enow; exact Hp).
  assert (Hx : existsb (same_key name slot) (w_db (c_world (snd (reset_db P ch c)))) = false)
    by (rewrite Edb; reflexivity).
  destruct (add_server_new_gen P enabled name slot ch' _ st en Hp1 Hx) as [R [_ [S _]]].
  rewrite R, S, Edb, Eseq; split; reflexivity.
Qed.

Lemma reset_db_then_add_server_id_one_witness :
  let c := mk_cworld (mk_world [mk_row 3 "Alpha" "20:00-22:00" "7:a" 5 (Some 40%Z)] [] 500
                               (100 * DAY + 12 * 3600)%Z) 4 [3%Z] in
  let P := mk_presenter (fun _ => true) (fun _ => FetchEdited) (fun _ => SendOk)
                        (fun _ => true) (fun _ => true) in
  parse_time_slot (w_now (c_world c) / DAY) "21:00-23:00"
    = Some (100 * DAY + 75600, 100 * DAY + 82800)%Z
  /\ rosters (w_db (c_world (snd (add_server P true "Beta" "21:00-23:00" 6
                                   (snd (reset_db P 5 c))))))
     = [(1%Z, ""%string)]
  /\ c_seq (snd (add_server P true "Beta" "21:00-23:00" 6 (snd (reset_db P 5 c)))) = 1%Z.
Proof.
  intros c P.
  assert (Hp : parse_time_slot (w_now (c_world c) / DAY) "21:00-23:00"
               = Some (100 * DAY + 75600, 100 * DAY + 82800)%Z) by (vm_compute; reflexivity).
  split; [exact Hp|].
  exact (reset_db_then_add_server_id_one P 5 6 true "Beta" "21:00-23:00" c _ _ Hp).
Defined.

(** ** The roster callbacks and the embed *)

Lemma filter_none_contains (r : list string) (u : string) :
  existsb (fun p => Py.contains u p) r = false ->
  filter (fun p => negb (Py.contains u p)) r = r.
Proof.
  induction r as [|p t IH]; cbn; [reflexivity|].
  intros H; apply orb_false_iff in H as [H1 H2]; rewrite H1, IH by exact H2; reflexivity.
Qed.

(** A join then a leave of the same user, each callback reading the
    column, transforming the list and writing it back, restore the stored
    column: the join appends ["uid:name"] only when no entry contains the
    id, and the leave removes exactly the entries containing it, as long
    as no entry (the new one included) contains the separator [", "]. *)
Theorem leave_after_join (r : list string) (u n : string)
    (Hr : Forall (fun p => p <> "" /\ Py.contains ", " p = false) r)
    (Hn : Py.contains ", " (u ++ ":" ++ n) = false)
    (Hj : existsb (fun p => Py.contains u p) r = false) :
  let col := store_participants r in
  let col1 := store_participants (join_participants (get_participants_list col) u n) in
  store_participants (leave_participants (get_participants_list col1) u) = col.
Proof.
  cbv zeta.
  rewrite (get_store_roundtrip r Hr).
  unfold join_participants; rewrite Hj.
  rewrite get_store_roundtrip.
  - unfold leave_participants; rewrite filter_app, filter_none_contains by exact Hj.
    cbn [filter]; rewrite contains_app; cbn; rewrite app_nil_r; reflexivity.
  - apply Forall_app; split; [exact Hr|].
    constructor; [|constructor].
    split; [|exact Hn].
    destruct u; discriminate.
Qed.

Lemma leave_after_join_witness :
  Forall (fun p => p <> "" /\ Py.contains ", " p = false) ["17:ann"; "23:bob:1"]
  /\ Py.contains ", " ("42" ++ ":" ++ "cyd") = false
  /\ existsb (fun p => Py.contains "42" p) ["17:ann"; "23:bob:1"] = false
  /\ store_participants
       (leave_participants
          (get_participants_list
             (store_participants
                (join_participants
                   (get_participants_list (store_participants ["17:ann"; "23:bob:1"]))
                   "42" "cyd"))) "42")
     = store_participants ["17:ann"; "23:bob:1"].
Proof.
  assert (Hr : Forall (fun p => p <> "" /\ Py.contains ", " p = false) ["17:ann"; "23:bob:1"])
    by (repeat constructor; discriminate).
  assert (Hn : Py.contains ", " ("42" ++ ":" ++ "cyd") = false) by (vm_compute; reflexivity).
  assert (H : existsb (fun p => Py.contains "42" p) ["17:ann"; "23:bob:1"] = false)
    by (vm_compute; reflexivity).
  split; [exact Hr|split; [exact Hn|split; [exact H|]]].
  exact (leave_after_join ["17:ann"; "23:bob:1"] "42" "cyd" Hr Hn H).
Defined.

Lemma delay_entry_other (u p : string) : entry_uid p <> u -> delay_entry u p = Some p.
Proof.
  unfold entry_uid, delay_entry; intros H.
  destruct (Py.split_char ":" p) as [|p0 rest]; [reflexivity|].
  apply String.eqb_neq in H; rewrite H; reflexivity.
Qed.

(** When the loop of [DelayButton.callback] (lines 291-299) finishes, the
    new roster has as many entries as the old one, and every entry whose
    user id (the text before its first [":"]) is another user's stays the
    same, in the same place. *)
Theorem delay_loop_keeps_others (u : string) (l l' : list string)
    (H : delay_loop u l = Some l') :
  length l' = length l
  /\ forall i p, nth_error l i = Some p -> entry_uid p <> u -> nth_error l' i = Some p.
Proof.
  revert l' H; induction l as [|p t IH]; intros l' H; cbn in H.
  - injection H as <-; split; [reflexivity|intros [|i] q Hq; discriminate].
  - destruct (delay_entry u p) as [q|] eqn:Eq; [|discriminate].
    destruct (delay_loop u t) as [t'|]; [|discriminate].
    injection H as <-.
    destruct (IH t' eq_refl) as [Hl Hn].
    split; [cbn; rewrite Hl; reflexivity|].
    intros [|i] x Hx Hu; cbn in Hx |- *.
    + injection Hx as ->; rewrite delay_entry_other in Eq by exact Hu; symmetry; exact Eq.
    + exact (Hn i x Hx Hu).
Qed.

Lemma delay_loop_keeps_others_witness :
  delay_loop "23" ["17:ann"; "23:bob:1"; "5:cy"] = Some ["17:ann"; "23:bob:2"; "5:cy"]
  /\ length ["17:ann"; "23:bob:2"; "5:cy"] = length ["17:ann"; "23:bob:1"; "5:cy"]
  /\ forall i p, nth_error ["17:ann"; "23:bob:1"; "5:cy"] i = Some p -> entry_uid p <> "23" ->
       nth_error ["17:ann"; "23:bob:2"; "5:cy"] i = Some p.
Proof.
  assert (H : delay_loop "23" ["17:ann"; "23:bob:1"; "5:cy"]
              = Some ["17:ann"; "23:bob:2"; "5:cy"]) by (vm_compute; reflexivity).
  split; [exact H|].
  exact (delay_loop_keeps_others "23" _ _ H).
Defined.

(** A delay press on a well-formed entry ["uid:name:tier"] and the
    rendering of the result: the name shows the late marker with the next
    tier of the cycle 0, 1, 2, 0, and the bare name when the cycle is back
    at 0. *)
Theorem delay_then_render (u n : string) (t : Z)
    (Hu : Py.has_char ":" u = false) (Hn : Py.has_char ":" n = false) (Ht : (0 <= t < 3)%Z) :
  match delay_entry u (u ++ ":" ++ n ++ ":" ++ Py.str_of_Z t) with
  | Some e => render_name e
  | None => None
  end
  = Some (if ((t + 1) mod 3 =? 0)%Z then n
          else n ++ " (+" ++ Py.str_of_Z ((t + 1) mod 3) ++ LATE_MARK ++ ")").
Proof.
  rewrite delay_entry_tier by assumption.
  unfold render_name, Py.split_char_max2.
  cbn [String.append].
  rewrite cut_char_app by exact Hu.
  rewrite cut_char_app by exact Hn.
  assert (t = 0 \/ t = 1 \/ t = 2)%Z as [->|[->| ->]] by lia; reflexivity.
Qed.

Lemma delay_then_render_witness :
  Py.has_char ":" "23" = false /\ Py.has_char ":" "bob" = false /\ (0 <= 1 < 3)%Z
  /\ match delay_entry "23" ("23" ++ ":" ++ "bob" ++ ":" ++ Py.str_of_Z 1) with
     | Some e => render_name e
     | None => None
     end
     = Some (if ((1 + 1) mod 3 =? 0)%Z then "bob"
             else "bob" ++ " (+" ++ Py.str_of_Z ((1 + 1) mod 3) ++ LATE_MARK ++ ")").
Proof.
  assert (Hu : Py.has_char ":" "23" = false) by reflexivity.
  assert (Hn : Py.has_char ":" "bob" = false) by reflexivity.
  assert (Ht : (0 <= 1 < 3)%Z) by lia.
  split; [exact Hu|split; [exact Hn|split; [exact Ht|]]].
  exact (delay_then_render "23" "bob" 1 Hu Hn Ht).
Defined.

(** ** The [message] command *)

Lemma lower_char_idem (a : ascii) : lower_char (lower_char a) = lower_char a.
Proof.
  unfold lower_char.
  destruct ((65 <=? nat_of_ascii a)%nat && (nat_of_ascii a <=? 90)%nat) eqn:E.
  - apply andb_true_iff in E as [E1 E2]; apply Nat.leb_le in E1, E2.
    rewrite Ascii.nat_ascii_embedding by lia.
    replace ((65 <=? nat_of_ascii a + 32)%nat && (nat_of_ascii a + 32 <=? 90)%nat)
      with false; [reflexivity|].
    symmetry; apply andb_false_iff; right; apply Nat.leb_gt; lia.
  - rewrite E; reflexivity.
Qed.

Lemma lower_idem (s : string) : lower (lower s) = lower s.
Proof. induction s as [|a t IH]; cbn; [reflexivity|rewrite lower_char_idem, IH; reflexivity]. Qed.

(** The [message] command (lines 524-536) reads its mode after
    [lower()]: a mode and its lower-case form have the same effect, and
    only ["on"] and ["off"] in any case change the flag. *)
Theorem message_cmd_case_insensitive (enabled : bool) (mode : string) :
  message_cmd enabled (lower mode) = message_cmd enabled mode
  /\ (fst (message_cmd enabled mode) <> enabled ->
      lower mode = "on" \/ lower mode = "off").
Proof.
  split; [unfold message_cmd; rewrite lower_idem; reflexivity|].
  unfold message_cmd.
  destruct (String.eqb_spec (lower mode) "on"); [auto|].
  destruct (String.eqb_spec (lower mode) "off"); [auto|].
  cbn; intros H; contradiction.
Qed.
